(** * text-to-json-mcp: the gap analyser and the prompt processor

    A shallow embedding of [utils/gapAnalysis.js] and
    [utils/promptProcessor.js].

    JavaScript strings are modelled as [string]: sequences of 8-bit code
    units, read as the Latin-1 range of UTF-16.  All keyword tables and
    regular expressions of the two files are ASCII, and within this range
    [toLowerCase] keeps the length of a string.  Numbers are integers
    throughout (counts, scores, clock readings), so they are modelled as
    [nat] and [Z]. *)

From Stdlib Require Import Bool Arith ZArith Lia List Ascii String.
From Stdlib Require Import DecimalString DecimalNat Permutation.
Import ListNotations.

Local Open Scope list_scope.
Local Open Scope string_scope.

(** ** String primitives of the host language *)

Module JS.

(** The code unit of a character. *)
Definition code (c : ascii) : nat := nat_of_ascii c.

(** [\s] of regular expressions, which is also the set [trim] removes:
    TAB, LF, VT, FF, CR, SPACE and NBSP. *)
Definition isWhiteSpace (c : ascii) : bool :=
  let n := code c in
  (((9 <=? n) && (n <=? 13)) || (n =? 32) || (n =? 160))%nat.

(** [\w] of regular expressions: [A-Za-z0-9_]. *)
Definition isWordChar (c : ascii) : bool :=
  let n := code c in
  (((65 <=? n) && (n <=? 90)) || ((97 <=? n) && (n <=? 122))
   || ((48 <=? n) && (n <=? 57)) || (n =? 95))%nat.

(** [toLowerCase] on one code unit: A-Z and the Latin-1 capitals
    (0xC0-0xDE but the multiplication sign 0xD7) move up by 32. *)
Definition toLowerCaseChar (c : ascii) : ascii :=
  let n := code c in
  if (((65 <=? n) && (n <=? 90))
      || ((192 <=? n) && (n <=? 222) && negb (n =? 215)))%nat
  then ascii_of_nat (n + 32) else c.

(** [toUpperCase] on one code unit, for the ASCII letters (it is only
    applied to the first letter of an entry of a keyword table). *)
Definition toUpperCaseChar (c : ascii) : ascii :=
  let n := code c in
  if ((97 <=? n) && (n <=? 122))%nat then ascii_of_nat (n - 32) else c.

Fixpoint toLowerCase (s : string) : string :=
  match s with
  | EmptyString => EmptyString
  | String c s' => String (toLowerCaseChar c) (toLowerCase s')
  end.

Fixpoint trimStart (s : string) : string :=
  match s with
  | EmptyString => EmptyString
  | String c s' => if isWhiteSpace c then trimStart s' else s
  end.

Fixpoint trimEnd (s : string) : string :=
  match s with
  | EmptyString => EmptyString
  | String c s' =>
      match trimEnd s' with
      | EmptyString => if isWhiteSpace c then EmptyString
                       else String c EmptyString
      | r => String c r
      end
  end.

Definition trim (s : string) : string := trimEnd (trimStart s).

(** [s.startsWith(p)]. *)
Definition startsWith (p s : string) : bool := prefix p s.

(** [s.indexOf(needle)], [None] standing for -1. *)
Fixpoint indexOf (needle s : string) : option nat :=
  if prefix needle s then Some 0
  else match s with
       | EmptyString => None
       | String _ s' => option_map S (indexOf needle s')
       end.

(** [s.includes(needle)]. *)
Definition includes (needle s : string) : bool :=
  match indexOf needle s with Some _ => true | None => false end.

(** [s.slice(0, k)]. *)
Definition take (k : nat) (s : string) : string := substring 0 k s.

(** [s.slice(k)]. *)
Fixpoint drop (k : nat) (s : string) : string :=
  match k, s with
  | S k', String _ s' => drop k' s'
  | _, _ => s
  end.

(** [s.split(sep)] for a string separator: the occurrences of [sep] are
    found from left to right and do not overlap.  [splitGo] returns the
    piece being read and the pieces after it; [skip] counts the code
    units of a separator that are still to be passed over. *)
Fixpoint splitGo (sep : string) (skip : nat) (s : string)
  : string * list string :=
  match s with
  | EmptyString => (EmptyString, [])
  | String c s' =>
      match skip with
      | S k => splitGo sep k s'
      | O =>
          if prefix sep s
          then let '(p, ps) := splitGo sep (length sep - 1) s' in
               (EmptyString, p :: ps)
          else let '(p, ps) := splitGo sep 0 s' in
               (String c p, ps)
      end
  end.

Fixpoint chars (s : string) : list string :=
  match s with
  | EmptyString => []
  | String c s' => String c EmptyString :: chars s'
  end.

Definition split (sep s : string) : list string :=
  match sep with
  | EmptyString => chars s
  | _ => let '(p, ps) := splitGo sep 0 s in p :: ps
  end.

(** [s.split(/[...]+/)] for a character class [isSep]: the separators
    are the maximal runs of characters of the class.  A leading or a
    trailing run leaves an empty piece at that end, as in the host
    language.  [prevSep] tells that the previous character belonged to
    a run. *)
Fixpoint splitRunsGo (isSep : ascii -> bool) (prevSep : bool) (s : string)
  : string * list string :=
  match s with
  | EmptyString => (EmptyString, [])
  | String c s' =>
      if isSep c
      then if prevSep then splitRunsGo isSep true s'
           else let '(p, ps) := splitRunsGo isSep true s' in
                (EmptyString, p :: ps)
      else let '(p, ps) := splitRunsGo isSep false s' in
           (String c p, ps)
  end.

Definition splitRuns (isSep : ascii -> bool) (s : string) : list string :=
  let '(p, ps) := splitRunsGo isSep false s in p :: ps.

(** [String(n)] for a natural number. *)
Definition ofNat (n : nat) : string :=
  NilEmpty.string_of_uint (Nat.to_uint n).

(** The double quote, for template strings. *)
Definition dq : string := String "034"%char EmptyString.

(** [arr.findIndex(p)], -1 when no element satisfies [p]. *)
Fixpoint findIndex {A : Type} (p : A -> bool) (l : list A) : Z :=
  match l with
  | [] => (-1)%Z
  | x :: l' =>
      if p x then 0%Z
      else match findIndex p l' with
           | Zneg _ => (-1)%Z
           | i => (i + 1)%Z
           end
  end.

(** The elements of an array with their indices, as the callbacks of
    [forEach] and [filter] receive them. *)
Definition indexed {A : Type} (l : list A) : list (nat * A) :=
  combine (seq 0 (List.length l)) l.

(** [Math.round] on a number that is an integer already. *)
Definition Math_round (z : Z) : Z := z.

End JS.

(** ** utils/gapAnalysis.js *)

Inductive Category :=
| missing_context | ambiguous_requirement | unclear_output
| missing_constraints.

Inductive Severity := low | medium | high.

Record Finding := mkFinding {
  category : Category;
  description : string;
  suggestion : string;
  severity : Severity
}.

Definition Category_eqb (a b : Category) : bool :=
  match a, b with
  | missing_context, missing_context
  | ambiguous_requirement, ambiguous_requirement
  | unclear_output, unclear_output
  | missing_constraints, missing_constraints => true
  | _, _ => false
  end.

Definition Severity_eqb (a b : Severity) : bool :=
  match a, b with
  | low, low | medium, medium | high, high => true
  | _, _ => false
  end.

Definition CONTEXT_INDICATORS : list string :=
  ["it"; "this"; "that"; "they"; "them"; "those"; "here"; "there";
   "the system"; "the app"; "the website"; "the platform"].

Definition AMBIGUITY_INDICATORS : list string :=
  ["maybe"; "possibly"; "might"; "could"; "should"; "would";
   "better"; "best"; "good"; "nice"; "pretty"; "cool";
   "soon"; "quickly"; "fast"; "efficient"; "user-friendly"].

Definition OUTPUT_INDICATORS : list string :=
  ["something"; "stuff"; "things"; "data"; "information";
   "report"; "summary"; "analysis"; "results"].

Definition CONSTRAINT_INDICATORS : list string :=
  ["any"; "all"; "every"; "always"; "never";
   "unlimited"; "infinite"; "maximum"; "minimum"].

(** The class [[.!?]] that ends a sentence. *)
Definition isSentenceEnd (c : ascii) : bool :=
  let n := JS.code c in ((n =? 46) || (n =? 33) || (n =? 63))%nat.

(** [text.split(/[.!?]+/).filter(s => s.trim().length > 0)]. *)
Definition sentencesOf (text : string) : list string :=
  filter (fun s => (0 <? length (JS.trim s))%nat) (JS.splitRuns isSentenceEnd text).

Definition contextFinding (indicator : string) (index : nat) : Finding :=
  {| category := missing_context;
     description := "Unclear reference to " ++ JS.dq ++ indicator ++ JS.dq
                    ++ " in sentence " ++ JS.ofNat (index + 1);
     suggestion := "Specify what " ++ JS.dq ++ indicator ++ JS.dq
                   ++ " refers to";
     severity := medium |}.

(** The body of the inner [forEach] of [findMissingContext]: what one
    sentence and one indicator push. *)
Definition contextGaps (index : nat) (sentence indicator : string)
  : list Finding :=
  if JS.includes (JS.toLowerCase indicator) (JS.toLowerCase sentence) then
    let wordsBefore := JS.trim (hd EmptyString (JS.split indicator sentence)) in
    if (length wordsBefore <? 10)%nat then [contextFinding indicator index] else []
  else [].

Definition findMissingContext (text : string) : list Finding :=
  flat_map (fun '(index, sentence) =>
              flat_map (contextGaps index sentence) CONTEXT_INDICATORS)
           (JS.indexed (sentencesOf text)).

Definition ambiguityFinding (indicator : string) : Finding :=
  {| category := ambiguous_requirement;
     description := "Vague requirement: " ++ JS.dq ++ indicator ++ JS.dq;
     suggestion := "Replace " ++ JS.dq ++ indicator ++ JS.dq
                   ++ " with specific, measurable criteria";
     severity := high |}.

Definition outputFinding (indicator : string) : Finding :=
  {| category := unclear_output;
     description := "Unclear output: " ++ JS.dq ++ indicator ++ JS.dq;
     suggestion := "Specify the exact format, structure, and content of the "
                   ++ JS.dq ++ indicator ++ JS.dq;
     severity := medium |}.

Definition constraintFinding (indicator : string) : Finding :=
  {| category := missing_constraints;
     description := "Missing constraint: " ++ JS.dq ++ indicator ++ JS.dq;
     suggestion := "Specify limits, boundaries, or specific criteria for "
                   ++ JS.dq ++ indicator ++ JS.dq;
     severity := medium |}.

(** The loop shared by the three whole-text rules: one finding for each
    indicator of the table that the lower-cased text includes. *)
Definition scanIndicators (table : list string) (mk : string -> Finding)
  (text : string) : list Finding :=
  flat_map (fun indicator =>
              if JS.includes (JS.toLowerCase indicator) (JS.toLowerCase text)
              then [mk indicator] else [])
           table.

Definition findAmbiguousRequirements (text : string) : list Finding :=
  scanIndicators AMBIGUITY_INDICATORS ambiguityFinding text.

Definition findUnclearOutputs (text : string) : list Finding :=
  scanIndicators OUTPUT_INDICATORS outputFinding text.

Definition findMissingConstraints (text : string) : list Finding :=
  scanIndicators CONSTRAINT_INDICATORS constraintFinding text.

(** [text.split(/\s+/).length]. *)
Definition wordCount (text : string) : nat :=
  List.length (JS.splitRuns JS.isWhiteSpace text).

Definition calculateClarityScore (text : string) (gaps : list Finding) : Z :=
  let baseScore := 100%Z in
  let penaltyPerGap := 15%Z in
  let penaltyPerHighSeverity := 10%Z in
  let score := baseScore in
  let score := (score - Z.of_nat (List.length gaps) * penaltyPerGap)%Z in
  let highSeverityGaps :=
    filter (fun gap => Severity_eqb (severity gap) high) gaps in
  let score :=
    (score - Z.of_nat (List.length highSeverityGaps) * penaltyPerHighSeverity)%Z in
  let score := if (20 <? wordCount text)%nat then (score + 5)%Z else score in
  let score := if (50 <? wordCount text)%nat then (score + 10)%Z else score in
  Z.max 0 (Z.min 100 (JS.Math_round score)).

Record Analysis := mkAnalysis {
  gaps : list Finding;
  overall_clarity_score : Z
}.

(** The four rules in the order of the array literal. *)
Definition allGaps (text : string) : list Finding :=
  (findMissingContext text ++ findAmbiguousRequirements text
   ++ findUnclearOutputs text ++ findMissingConstraints text)%list.

(** [gaps.filter((gap, index, self) =>
       index === self.findIndex(g => g.description === gap.description))]. *)
Definition uniqueByDescription (self : list Finding) : list Finding :=
  map snd
      (filter (fun '(index, gap) =>
                 Z.eqb (Z.of_nat index)
                       (JS.findIndex
                          (fun g => description g =? description gap) self))
              (JS.indexed self)).

Definition analyzeTextForGaps (text : string) : Analysis :=
  let gaps := allGaps text in
  let uniqueGaps := uniqueByDescription gaps in
  let clarityScore := calculateClarityScore text uniqueGaps in
  {| gaps := uniqueGaps; overall_clarity_score := clarityScore |}.

Definition hasCategory (c : Category) (gaps : list Finding) : bool :=
  existsb (fun gap => Category_eqb (category gap) c) gaps.

Definition generateClaritySuggestions (gaps : list Finding) : list string :=
  ((if hasCategory missing_context gaps
    then ["Add specific context and background information"] else [])
  ++ (if hasCategory ambiguous_requirement gaps
      then ["Use specific, measurable criteria instead of subjective terms"]
      else [])
  ++ (if hasCategory unclear_output gaps
      then ["Specify exact output format, structure, and content requirements"]
      else [])
  ++ (if hasCategory missing_constraints gaps
      then ["Define clear boundaries, limits, and constraints"] else []))%list.

(** ** Regular expressions of utils/promptProcessor.js

    The extraction patterns are sequences of three kinds of atoms: a
    literal, a class repeated once or more ([\w+], [\s+]) and such a
    repetition inside a capture group.  All of them carry the flag [i]. *)

Module Regex.

Inductive CharClass := Word | Space.

Inductive Atom :=
| Lit (s : string)
| Plus (c : CharClass)
| Group (c : CharClass).

Definition inClass (c : CharClass) : ascii -> bool :=
  match c with Word => JS.isWordChar | Space => JS.isWhiteSpace end.

(** Literal match under the flag [i]: the patterns are ASCII, for which
    the engine's case folding agrees with comparing lower-cased code
    units. *)
Fixpoint prefixCI (p s : string) : bool :=
  match p, s with
  | EmptyString, _ => true
  | String a p', String b s' =>
      Ascii.eqb (JS.toLowerCaseChar a) (JS.toLowerCaseChar b) && prefixCI p' s'
  | String _ _, EmptyString => false
  end.

Fixpoint runLength (f : ascii -> bool) (s : string) : nat :=
  match s with
  | String c s' => if f c then S (runLength f s') else 0
  | EmptyString => 0
  end.

(** Greedy choice with backtracking: [k], then [k - 1], down to 1. *)
Fixpoint firstDown {A : Type} (f : nat -> option A) (k : nat) : option A :=
  match k with
  | O => None
  | S k' => match f k with Some a => Some a | None => firstDown f k' end
  end.

(** A match that starts at the head of [s]: the captures and the number
    of code units consumed. *)
Fixpoint matchHere (r : list Atom) (s : string) : option (list string * nat) :=
  match r with
  | [] => Some ([], 0)
  | Lit l :: r' =>
      if prefixCI l s
      then match matchHere r' (JS.drop (length l) s) with
           | Some (caps, n) => Some (caps, length l + n)
           | None => None
           end
      else None
  | Plus c :: r' =>
      firstDown (fun k => match matchHere r' (JS.drop k s) with
                          | Some (caps, n) => Some (caps, k + n)
                          | None => None
                          end)
                (runLength (inClass c) s)
  | Group c :: r' =>
      firstDown (fun k => match matchHere r' (JS.drop k s) with
                          | Some (caps, n) => Some (JS.take k s :: caps, k + n)
                          | None => None
                          end)
                (runLength (inClass c) s)
  end.

(** [text.match(r)] without the flag [g]: the captures of the leftmost
    match. *)
Fixpoint exec (r : list Atom) (s : string) : option (list string) :=
  match matchHere r s with
  | Some (caps, _) => Some caps
  | None => match s with
            | EmptyString => None
            | String _ s' => exec r s'
            end
  end.

(** [text.matchAll(r)] with the flag [g]: the captures of every match,
    each search resuming where the previous match ended. *)
Fixpoint matchAllGo (r : list Atom) (skip : nat) (s : string)
  : list (list string) :=
  match s with
  | EmptyString =>
      match skip, matchHere r s with
      | O, Some (caps, _) => [caps]
      | _, _ => []
      end
  | String _ s' =>
      match skip with
      | S k => matchAllGo r k s'
      | O => match matchHere r s with
             | Some (caps, n) => caps :: matchAllGo r (n - 1) s'
             | None => matchAllGo r 0 s'
             end
      end
  end.

Definition matchAll (r : list Atom) (s : string) : list (list string) :=
  matchAllGo r 0 s.

(** [match[1]] inside a template string. *)
Definition group1 (caps : list string) : string := hd "undefined" caps.

Fixpoint escape (s : string) : string :=
  match s with
  | EmptyString => EmptyString
  | String c s' =>
      if ((JS.code c =? 40) || (JS.code c =? 41))%nat
      then String "\" (String c (escape s'))
      else String c (escape s')
  end.

Definition classSource (c : CharClass) : string :=
  match c with Word => "\w+" | Space => "\s+" end.

(** [r.source]. *)
Fixpoint source (r : list Atom) : string :=
  match r with
  | [] => EmptyString
  | Lit l :: r' => escape l ++ source r'
  | Plus c :: r' => classSource c ++ source r'
  | Group c :: r' => "(" ++ classSource c ++ ")" ++ source r'
  end.

(** [s.replace(/[()]/g, '')]. *)
Fixpoint dropParens (s : string) : string :=
  match s with
  | EmptyString => EmptyString
  | String c s' =>
      if ((JS.code c =? 40) || (JS.code c =? 41))%nat
      then dropParens s' else String c (dropParens s')
  end.

(** [/(\w+)\s+kw/] and [/kw\s+(\w+)/]. *)
Definition wordBefore (kw : string) : list Atom :=
  [Group Word; Plus Space; Lit kw].
Definition wordAfter (kw : string) : list Atom :=
  [Lit kw; Plus Space; Group Word].

End Regex.

(** ** utils/promptProcessor.js *)

Inductive Exn := TypeError (message : string).

Definition message (e : Exn) : string :=
  match e with TypeError m => m end.

Inductive Result (A : Type) :=
| Ok (a : A)
| Throw (e : Exn).
Arguments Ok {A} a.
Arguments Throw {A} e.

(** Reading a property of [undefined]; the wording is that of the engine
    (V8). *)
Definition readOfUndefined (prop : string) : Exn :=
  TypeError ("Cannot read properties of undefined (reading '" ++ prop ++ "')").

Definition actionVerbs : list string :=
  ["generate"; "create"; "build"; "make"; "develop"; "design"; "implement";
   "write"; "produce"; "construct"; "assemble"; "compile"; "organize"].

Definition startsWithActionVerb (firstSentence : string) : bool :=
  existsb (fun verb => JS.startsWith (JS.toLowerCase verb)
                                     (JS.toLowerCase firstSentence))
          actionVerbs.

(** [sentences[0]] is [undefined] when no sentence is left, and calling
    [trim] on it throws. *)
Definition extractTask (text : string) : Result string :=
  match sentencesOf text with
  | [] => Throw (readOfUndefined "trim")
  | s0 :: _ =>
      let firstSentence := JS.trim s0 in
      if startsWithActionVerb firstSentence
      then Ok firstSentence
      else Ok firstSentence
  end.

Definition intentIndicators : list string :=
  ["to"; "for"; "so that"; "in order to"; "because"; "since";
   "as"; "while"; "when"; "if"; "although"].

Definition defaultIntent : string :=
  "To fulfill the specified requirements and deliver the requested output".

(** The nested loops return at the first pair of a sentence and an
    indicator that passes both tests: the head of the list of all the
    values they could return. *)
Definition extractIntent (text : string) : string :=
  hd defaultIntent
     (flat_map
        (fun sentence =>
           flat_map
             (fun indicator =>
                if JS.includes (JS.toLowerCase indicator) (JS.toLowerCase sentence)
                then let parts := JS.split indicator sentence in
                     if (1 <? List.length parts)%nat
                     then [JS.trim (nth 1 parts EmptyString)] else []
                else [])
             intentIndicators)
        (sentencesOf text)).

Definition dataPatterns : list (list Regex.Atom) :=
  map Regex.wordBefore ["data"; "information"; "details"; "specifications"].

Definition paramPatterns : list (list Regex.Atom) :=
  map Regex.wordBefore ["parameters"; "criteria"; "requirements"].

(** One [forEach] over non-global patterns, pushing [render caps] for
    each pattern that matches. *)
Definition pushFirstMatches (patterns : list (list Regex.Atom))
  (render : list string -> string) (text : string) : list string :=
  flat_map (fun pattern => match Regex.exec pattern text with
                           | Some caps => [render caps]
                           | None => []
                           end)
           patterns.

Definition genericRequired : list string :=
  ["Input text or prompt"; "Context or background information"].

Definition extractRequiredInputs (text : string) : list string :=
  let required :=
    (pushFirstMatches dataPatterns
       (fun caps => (Regex.group1 caps ++ " data/information")%string) text
     ++ pushFirstMatches paramPatterns
          (fun caps => (Regex.group1 caps ++ " parameters/criteria")%string)
          text)%list in
  if (List.length required =? 0)%nat
  then (required ++ genericRequired)%list
  else required.

Definition optionalPatterns : list (list Regex.Atom) :=
  [Regex.wordAfter "optional";
   [Regex.Lit "if"; Regex.Plus Regex.Space; Regex.Lit "available";
    Regex.Plus Regex.Space; Regex.Group Regex.Word];
   Regex.wordBefore "(optional)"].

Definition genericOptional : list string :=
  ["Additional context"; "Preferences or style guidelines"].

Definition extractOptionalInputs (text : string) : list string :=
  (flat_map (fun pattern => map Regex.group1 (Regex.matchAll pattern text))
            optionalPatterns
   ++ genericOptional)%list.

Definition constraintPatterns : list (list Regex.Atom) :=
  map Regex.wordAfter
      ["within"; "limit"; "maximum"; "minimum"; "only"; "must"; "should"].

Definition genericConstraints : list string :=
  ["Available time and resources"; "Technical limitations"].

Definition extractConstraints (text : string) : list string :=
  (flat_map (fun pattern =>
               map (fun caps => (Regex.dropParens (Regex.source pattern)
                                 ++ " " ++ Regex.group1 caps)%string)
                   (Regex.matchAll pattern text))
            constraintPatterns
   ++ genericConstraints)%list.

Record Outputs := mkOutputs {
  primary : string;
  secondary : list string;
  format : string
}.

Definition formatPatterns : list (list Regex.Atom) :=
  map Regex.wordBefore ["format"; "file"; "output"].

Definition outputTypes : list string :=
  ["report"; "summary"; "analysis"; "list"; "catalog"; "database";
   "dashboard"; "interface"; "document"; "presentation"].

(** [type.charAt(0).toUpperCase() + type.slice(1)]. *)
Definition capitalize (type : string) : string :=
  match type with
  | EmptyString => EmptyString
  | String c rest => String (JS.toUpperCaseChar c) rest
  end.

Definition extractOutputs (text : string) : Outputs :=
  let format :=
    fold_left (fun format pattern =>
                 match Regex.exec pattern text with
                 | Some caps => Regex.group1 caps
                 | None => format
                 end)
              formatPatterns "JSON" in
  let primary :=
    match find (fun type => JS.includes (JS.toLowerCase type)
                                        (JS.toLowerCase text)) outputTypes with
    | Some type => capitalize type
    | None => EmptyString
    end in
  let primary :=
    if primary =? EmptyString then "Structured data or information"
    else primary in
  {| primary := primary;
     secondary := ["Documentation or instructions";
                   "Quality assurance metrics"];
     format := format |}.

Record Inputs := mkInputs {
  required : list string;
  optional : list string;
  constraints : list string
}.

Record PromptRecord := mkPromptRecord {
  task : string;
  intent : string;
  inputs : Inputs;
  outputs : Outputs;
  clarity_gaps : list string
}.

(** The statements of the [try] block up to the second clock reading. *)
Definition extractRecord (text : string) : Result PromptRecord :=
  match extractTask text with
  | Throw e => Throw e
  | Ok task =>
      let intent := extractIntent text in
      let inputs := {| required := extractRequiredInputs text;
                       optional := extractOptionalInputs text;
                       constraints := extractConstraints text |} in
      let outputs := extractOutputs text in
      let gapAnalysis := analyzeTextForGaps text in
      let clarity_gaps := map description (gaps gapAnalysis) in
      Ok {| task := task; intent := intent; inputs := inputs;
            outputs := outputs; clarity_gaps := clarity_gaps |}
  end.

(** *** The clock

    [Date.now()] is the only access of the two files to the outside
    world.  The world is the sequence of the readings the clock will give
    and the number of readings taken so far. *)

Record World := mkWorld {
  clock : nat -> Z;
  reads : nat
}.

Definition M (A : Type) : Type := World -> A * World.

Definition ret {A : Type} (a : A) : M A := fun w => (a, w).

Definition bind {A B : Type} (m : M A) (k : A -> M B) : M B :=
  fun w => let '(a, w') := m w in k a w'.

Notation "x <- m ;; k" := (bind m (fun x => k))
  (at level 61, m at next level, right associativity).

Definition Date_now : M Z :=
  fun w => (clock w (reads w), {| clock := clock w; reads := S (reads w) |}).

(** A clock that is never set back. *)
Definition monotone (w : World) : Prop :=
  forall i j, i <= j -> (clock w i <= clock w j)%Z.

Record ConvertResponse := mkConvertResponse {
  success : bool;
  data : option PromptRecord;
  error : option string;
  processing_time_ms : Z
}.

Definition convertPromptToJson (text : string) : M ConvertResponse :=
  startTime <- Date_now ;;
  match extractRecord text with
  | Ok result =>
      now <- Date_now ;;
      ret {| success := true; data := Some result; error := None;
             processing_time_ms := (now - startTime)%Z |}
  | Throw e =>
      now <- Date_now ;;
      ret {| success := false; data := None; error := Some (message e);
             processing_time_ms := (now - startTime)%Z |}
  end.

(** The gap analyser as the dispatcher calls it: it takes no reading. *)
Definition findClarityGaps (text : string) : M Analysis :=
  ret (analyzeTextForGaps text).

(** *** Refinement *)

Inductive ImprovementType := clarity | specificity | structure | completeness.

Record Improvement := mkImprovement {
  type : ImprovementType;
  improvement_description : string;
  before : string;
  after : string
}.

Definition vagueAdjectives : list string :=
  ["good"; "better"; "best"; "nice"; "pretty"; "cool"].

Definition replacement : string := "specific and measurable".

(** [\b] between the code unit [prev] (if any) and the head of [s]. *)
Definition wordBoundary (prev : option ascii) (s : string) : bool :=
  xorb (match prev with Some c => JS.isWordChar c | None => false end)
       (match s with String c _ => JS.isWordChar c | EmptyString => false end).

(** [/\b(good|better|best|nice|pretty|cool)\b/i] at the head of [s]: the
    first alternative after which the rest of the pattern matches; the
    result is the length of the match. *)
Definition matchVagueHere (prev : option ascii) (s : string) : option nat :=
  if wordBoundary prev s then
    option_map length
      (find (fun alt =>
               Regex.prefixCI alt s
               && wordBoundary (get (length alt - 1) s) (JS.drop (length alt) s))
            vagueAdjectives)
  else None.

(** [s.replace(/\b(good|...|cool)\b/gi, 'specific and measurable')]. *)
Fixpoint replaceVagueGo (prev : option ascii) (skip : nat) (s : string)
  : string :=
  match s with
  | EmptyString => EmptyString
  | String c s' =>
      match skip with
      | S k => replaceVagueGo (Some c) k s'
      | O =>
          match matchVagueHere prev s with
          | Some n => replacement ++ replaceVagueGo (Some c) (n - 1) s'
          | None => String c (replaceVagueGo (Some c) 0 s')
          end
      end
  end.

Definition replaceVague (s : string) : string := replaceVagueGo None 0 s.

Record RefinementResult := mkRefinementResult {
  refine_success : bool;
  original_prompt : string;
  refined_prompt : string;
  improvements : list Improvement
}.

(** One gated step: when a finding of category [c] exists, the text is
    rewritten by [rewrite] and an improvement with the text before and
    after is pushed. *)
Definition step (found : list Finding) (c : Category) (t : ImprovementType)
  (descr : string) (rewrite : string -> string)
  (st : string * list Improvement) : string * list Improvement :=
  let '(refinedText, improvements) := st in
  if hasCategory c found then
    let before := refinedText in
    let refinedText := rewrite refinedText in
    (refinedText,
     (improvements ++ [{| type := t; improvement_description := descr;
                          before := before; after := refinedText |}])%list)
  else st.

Definition addContext (t : string) : string :=
  "Context: This request is for [specify context]. " ++ t.

Definition addOutput (t : string) : string :=
  t ++ " The output should be in [specific format] with [specific structure] and include [specific content].".

Definition addConstraints (t : string) : string :=
  t ++ " Constraints: [specify time limits, resource constraints, technical limitations].".

Definition refinePrompt (text : string) : RefinementResult :=
  let gapAnalysis := analyzeTextForGaps text in
  let suggestions := generateClaritySuggestions (gaps gapAnalysis) in
  let found := gaps gapAnalysis in
  let st := (text, []) in
  let st := step found missing_context clarity
                 "Added context section" addContext st in
  let st := step found ambiguous_requirement specificity
                 "Replaced subjective terms with objective criteria"
                 replaceVague st in
  let st := step found unclear_output structure
                 "Added specific output requirements" addOutput st in
  let st := step found missing_constraints completeness
                 "Added constraints section" addConstraints st in
  {| refine_success := true;
     original_prompt := text;
     refined_prompt := fst st;
     improvements := snd st |}.

(** ** cli.js

    What the command line prints is kept as a value: the help text, the
    version line and the JSON rendering of a result are not modelled. *)

Inductive CliValue :=
| ConvertValue (r : ConvertResponse)
| GapsValue (r : Analysis)
| RefineValue (r : RefinementResult).

Inductive CliOutcome :=
| ShowHelp
| ShowVersion
| StartServer
| Printed (result : CliValue)
| Exit1 (stderr : list string).

(** [console.error('Error:', result.error)]. *)
Definition errorLine (error : option string) : string :=
  "Error: " ++ match error with Some m => m | None => "undefined" end.

Definition processText (text command : string) : M CliOutcome :=
  if (text =? EmptyString) || (length (JS.trim text) =? 0)%nat
  then ret (Exit1 ["Error: Text input is required"])
  else if command =? "convert" then
    result <- convertPromptToJson text ;;
    if negb (success result)
    then ret (Exit1 [errorLine (error result)])
    else ret (Printed (ConvertValue result))
  else if command =? "gaps" then
    ret (Printed (GapsValue (analyzeTextForGaps text)))
  else if command =? "refine" then
    let result := refinePrompt text in
    if negb (refine_success result)
    then ret (Exit1 [errorLine None])
    else ret (Printed (RefineValue result))
  else ret (Exit1 ["Unknown command: " ++ command]).

(** [args.includes(flag)]. *)
Definition hasFlag (flag : string) (args : list string) : bool :=
  existsb (String.eqb flag) args.

(** [main], [args] being [process.argv.slice(2)]. *)
Definition main (args : list string) : M CliOutcome :=
  if (List.length args =? 0)%nat || hasFlag "--help" args || hasFlag "-h" args
  then ret ShowHelp
  else if hasFlag "--version" args || hasFlag "-v" args
  then ret ShowVersion
  else
    let command := hd "undefined" args in
    if command =? "help" then ret ShowHelp
    else if command =? "version" then ret ShowVersion
    else if command =? "server" then ret StartServer
    else if (command =? "convert") || (command =? "gaps")
            || (command =? "refine") then
      if (List.length args <? 2)%nat
      then ret (Exit1 ["Error: " ++ command ++ " requires text input";
                       "Usage: npx text-to-json-mcp " ++ command ++ " "
                       ++ JS.dq ++ "your text here" ++ JS.dq])
      else
        let text := String.concat " " (tl args) in
        processText text command
    else ret (Exit1 ["Unknown command: " ++ command;
                     "Run " ++ JS.dq ++ "npx text-to-json-mcp help" ++ JS.dq
                     ++ " for usage information"]).

(** ** schema.js and the request handlers

    A handler receives [request.params], which may be absent; when
    present its [text] is [undefined], a string, or another value of the
    transport (null, a number, a boolean, an array, an object), of which
    the handlers only test whether it is truthy.  The objects the
    handlers build have the types of the response schemas by
    construction, so of a response schema only its numeric bounds are
    left to check. *)

Inductive JsText :=
| Undefined
| Str (text : string)
| NonString (truthy : bool).

Inductive Params :=
| NoParams
| WithText (text : JsText).

(** [TextInputSchema.parse(request.params)]: [None] when it throws,
    which it does unless [text] is a string of one character at least. *)
Definition TextInputSchema_parse (params : Params) : option string :=
  match params with
  | WithText (Str text) => if (1 <=? length text)%nat then Some text else None
  | _ => None
  end.

Record ClarityGapsResponse := mkClarityGapsResponse {
  cg_success : bool;
  cg_gaps : list Finding;
  cg_score : Z
}.

(** [ClarityGapsResponseSchema.parse(result)]: the score is a number
    between 0 and 100. *)
Definition ClarityGapsResponseSchema_parse (result : ClarityGapsResponse)
  : option ClarityGapsResponse :=
  if ((0 <=? cg_score result) && (cg_score result <=? 100))%Z
  then Some result else None.

(** The handler of findClarityGaps of src/index.js. *)
Definition handleFindClarityGaps (params : Params) : ClarityGapsResponse :=
  let failure := {| cg_success := false; cg_gaps := []; cg_score := 0 |} in
  match TextInputSchema_parse params with
  | None => failure
  | Some text =>
      let gapAnalysis := analyzeTextForGaps text in
      let result := {| cg_success := true;
                       cg_gaps := gaps gapAnalysis;
                       cg_score := overall_clarity_score gapAnalysis |} in
      match ClarityGapsResponseSchema_parse result with
      | Some validatedResult => validatedResult
      | None => failure
      end
  end.

(** The reply of a handler of src/mcp-server-v2.js: the object with
    [success: false] and an error, or the result of the operation. *)
Inductive V2Reply (A : Type) :=
| V2Rejected (error : string)
| V2Result (a : A).
Arguments V2Rejected {A} error.
Arguments V2Result {A} a.

(** [const { text } = request.params], which throws when there are no
    parameters; the wording is that of the engine (V8). *)
Definition destructureText (params : Params) : Result JsText :=
  match params with
  | NoParams =>
      Throw (TypeError
               "Cannot destructure property 'text' of 'request.params' as it is undefined.")
  | WithText text => Ok text
  end.

(** [!text]. *)
Definition falsy (text : JsText) : bool :=
  match text with
  | Undefined => true
  | Str s => s =? EmptyString
  | NonString truthy => negb truthy
  end.

(** Calling [split] on a truthy value that is not a string. *)
Definition splitNotFunction : Exn := TypeError "text.split is not a function".

(** The first statement of the three operations is a call of
    [text.split]: on a truthy value that is not a string it throws.
    convertPromptToJson catches the exception itself and returns its
    failure response, with the two readings of the clock. *)
Definition convertNonString : M ConvertResponse :=
  startTime <- Date_now ;;
  now <- Date_now ;;
  ret {| success := false; data := None;
         error := Some (message splitNotFunction);
         processing_time_ms := (now - startTime)%Z |}.

(** The three handlers: the body of [try], and [catch] replying with the
    message of the exception. *)
Definition v2ConvertPromptToJson (params : Params)
  : M (V2Reply ConvertResponse) :=
  match destructureText params with
  | Throw e => ret (V2Rejected (message e))
  | Ok text =>
      if falsy text then ret (V2Rejected "Text parameter is required")
      else match text with
           | Str s => result <- convertPromptToJson s ;; ret (V2Result result)
           | _ => result <- convertNonString ;; ret (V2Result result)
           end
  end.

Definition v2FindClarityGaps (params : Params)
  : V2Reply ClarityGapsResponse :=
  match destructureText params with
  | Throw e => V2Rejected (message e)
  | Ok text =>
      if falsy text then V2Rejected "Text parameter is required"
      else match text with
           | Str s =>
               let gapAnalysis := analyzeTextForGaps s in
               V2Result {| cg_success := true;
                           cg_gaps := gaps gapAnalysis;
                           cg_score := overall_clarity_score gapAnalysis |}
           | _ => V2Rejected (message splitNotFunction)
           end
  end.

Definition v2RefinePrompt (params : Params)
  : V2Reply RefinementResult :=
  match destructureText params with
  | Throw e => V2Rejected (message e)
  | Ok text =>
      if falsy text then V2Rejected "Text parameter is required"
      else match text with
           | Str s => V2Result (refinePrompt s)
           | _ => V2Rejected (message splitNotFunction)
           end
  end.

(** * Vocabulary of the properties *)

(** The bonus for the length of the text. *)
Definition lengthBonus (words : nat) : Z :=
  ((if (20 <? words)%nat then 5 else 0)
   + (if (50 <? words)%nat then 10 else 0))%Z.

(** The severity that goes with a category. *)
Definition severityOf (c : Category) : Severity :=
  match c with ambiguous_requirement => high | _ => medium end.

(** The findings of a list whose description did not occur before them,
    [seen] holding the descriptions read so far. *)
Fixpoint firstOccurrences (seen : list string) (l : list Finding)
  : list Finding :=
  match l with
  | [] => []
  | g :: r =>
      if existsb (String.eqb (description g)) seen
      then firstOccurrences seen r
      else g :: firstOccurrences (description g :: seen) r
  end.

(** The first occurrence of an indicator in a sentence, case ignored: the
    length of the text that precedes it. *)
Definition precedingLength (indicator sentence : string) : option nat :=
  JS.indexOf (JS.toLowerCase indicator) (JS.toLowerCase sentence).

(** The four categories, in the order of the gated steps. *)
Definition allCategories : list Category :=
  [missing_context; ambiguous_requirement; unclear_output; missing_constraints].

Definition Category_eq_dec (a b : Category) : {a = b} + {a <> b}.
Proof. decide equality. Defined.

(** The distinct categories among the findings of an analysis. *)
Definition distinctCategories (found : list Finding) : list Category :=
  nodup Category_eq_dec (map category found).

(** The text after the four gated rewritings, given which of them fire. *)
Definition rewritten (c a o k : bool) (text : string) : string :=
  let t := if c then addContext text else text in
  let t := if a then replaceVague t else t in
  let t := if o then addOutput t else t in
  if k then addConstraints t else t.

(** A world whose clock advances by one millisecond at each reading. *)
Definition tickingWorld : World := {| clock := Z.of_nat; reads := 0 |}.

(** The first piece of the text between sentence ends that is not the
    empty string. *)
Definition firstNonEmptySentence (text : string) : option string :=
  hd_error (filter (fun s => negb (s =? EmptyString))
                   (JS.splitRuns isSentenceEnd text)).

(** None of the seven data and parameter patterns matches the text. *)
Definition noInputPattern (text : string) : bool :=
  forallb (fun pattern => match Regex.exec pattern text with
                          | Some _ => false
                          | None => true
                          end)
          (dataPatterns ++ paramPatterns)%list.

(** The captures of all the matches of the three optional patterns. *)
Definition optionalMatches (text : string) : list string :=
  flat_map (fun pattern => map Regex.group1 (Regex.matchAll pattern text))
           optionalPatterns.

(** The characters of a string. *)
Fixpoint allChars (p : ascii -> bool) (s : string) : bool :=
  match s with
  | EmptyString => true
  | String c s' => p c && allChars p s'
  end.

(** A text made of white space only. *)
Definition blank (text : string) : bool := allChars JS.isWhiteSpace text.

(** A text made of white space and of the characters that end a
    sentence only. *)
Definition noSentence (text : string) : bool :=
  allChars (fun c => JS.isWhiteSpace c || isSentenceEnd c) text.

(** A string that does not start with white space. *)
Definition startsClean (s : string) : bool :=
  match s with
  | EmptyString => true
  | String c _ => negb (JS.isWhiteSpace c)
  end.

(** The classes of the capture groups of a pattern, in order. *)
Fixpoint groupClasses (r : list Regex.Atom) : list Regex.CharClass :=
  match r with
  | [] => []
  | Regex.Group c :: r' => c :: groupClasses r'
  | _ :: r' => groupClasses r'
  end.

(** A non-empty run of characters of a class. *)
Definition runOf (c : Regex.CharClass) (w : string) : Prop :=
  w <> EmptyString /\ allChars (Regex.inClass c) w = true.

(** The keywords of the constraint patterns. *)
Definition constraintKeywords : list string :=
  ["within"; "limit"; "maximum"; "minimum"; "only"; "must"; "should"].

(** The values the primary output can take. *)
Definition primaryValues : list string :=
  ["Report"; "Summary"; "Analysis"; "List"; "Catalog"; "Database";
   "Dashboard"; "Interface"; "Document"; "Presentation";
   "Structured data or information"].

(** The improvements lead from [start] to [finish]: each one starts where
    the one before it ended. *)
Fixpoint chained (start : string) (l : list Improvement) (finish : string)
  : Prop :=
  match l with
  | [] => start = finish
  | i :: rest => before i = start /\ chained (after i) rest finish
  end.

(** The kind of improvement a category leads to. *)
Definition improvementFor (c : Category) : ImprovementType :=
  match c with
  | missing_context => clarity
  | ambiguous_requirement => specificity
  | unclear_output => structure
  | missing_constraints => completeness
  end.

(** A string whose first character is not white space. *)
Definition startsWithInk (s : string) : bool :=
  match s with
  | EmptyString => false
  | String c _ => negb (JS.isWhiteSpace c)
  end.

(** The tokens of a text: its maximal runs of characters that are not
    white space.  [inToken] tells that the previous character belongs to
    a token. *)
Fixpoint tokensGo (inToken : bool) (s : string) : nat :=
  match s with
  | EmptyString => 0
  | String c s' =>
      if JS.isWhiteSpace c then tokensGo false s'
      else (if inToken then 0 else 1) + tokensGo true s'
  end.

Definition tokenCount (text : string) : nat := tokensGo false text.

(** The last character is white space, [prev] telling it of the
    character before the string. *)
Fixpoint endsWithSpaceFrom (prev : bool) (s : string) : bool :=
  match s with
  | EmptyString => prev
  | String c s' => endsWithSpaceFrom (JS.isWhiteSpace c) s'
  end.

Definition endsWithSpace (text : string) : bool := endsWithSpaceFrom false text.

Definition startsWithSpace (text : string) : bool :=
  match text with
  | EmptyString => false
  | String c _ => JS.isWhiteSpace c
  end.

(** The pieces between the runs of white space of a text: its tokens,
    one empty piece when it starts with white space and one when it ends
    with white space; the empty text is one piece. *)
Definition pieceCount (text : string) : nat :=
  match text with
  | EmptyString => 1
  | _ => tokenCount text
         + (if startsWithSpace text then 1 else 0)
         + (if endsWithSpace text then 1 else 0)
  end.

(** A world whose clock is set back after the first reading. *)
Definition backWorld : World :=
  {| clock := fun i => match i with O => 5%Z | _ => 3%Z end; reads := 0 |}.

(** * Properties *)

(** ** The clarity score *)

Section Score.

Variable text : string.
Variable found : list Finding.

Let n : Z := Z.of_nat (List.length found).
Let h : Z :=
  Z.of_nat (List.length (filter (fun g => Severity_eqb (severity g) high) found)).

Lemma calculateClarityScore_eq :
  calculateClarityScore text found
  = Z.max 0 (Z.min 100 (100 - 15 * n - 10 * h
                        + lengthBonus (wordCount text)))%Z.
Proof.
  unfold calculateClarityScore, lengthBonus, JS.Math_round; subst n h.
  destruct (20 <? wordCount text)%nat, (50 <? wordCount text)%nat;
    f_equal; f_equal; lia.
Qed.

Lemma calculateClarityScore_bounds :
  (0 <= calculateClarityScore text found <= 100)%Z.
Proof. rewrite calculateClarityScore_eq; lia. Qed.

End Score.

(** The count is that of the pieces of the split: a run of white space at
    an end of the text leaves an empty piece there, and the empty text is
    one piece. *)
Example wordCount_pieces :
  wordCount "Make something good" = 3
  /\ wordCount " Make something good " = 5
  /\ wordCount "" = 1.
Proof. repeat split. Qed.

Lemma splitRunsGo_count s :
  List.length (snd (JS.splitRunsGo JS.isWhiteSpace true s)) + 1
  = tokensGo false s + (if endsWithSpaceFrom true s then 1 else 0)
  /\ List.length (snd (JS.splitRunsGo JS.isWhiteSpace false s))
     = tokensGo true s + (if endsWithSpaceFrom false s then 1 else 0).
Proof.
  induction s as [|c s [IHt IHf]]; [split; reflexivity|].
  cbn [JS.splitRunsGo tokensGo endsWithSpaceFrom].
  destruct (JS.isWhiteSpace c).
  - split; [exact IHt|].
    destruct (JS.splitRunsGo JS.isWhiteSpace true s) as [p ps].
    cbn [snd List.length] in *. lia.
  - destruct (JS.splitRunsGo JS.isWhiteSpace false s) as [p ps].
    cbn [snd] in *. split; lia.
Qed.

(** The count of the code is the number of pieces. *)
Lemma wordCount_pieceCount (text : string) : wordCount text = pieceCount text.
Proof.
  unfold wordCount, JS.splitRuns, pieceCount, tokenCount, endsWithSpace.
  destruct text as [|c s]; [reflexivity|].
  destruct (splitRunsGo_count s) as [Ht Hf].
  cbn [JS.splitRunsGo tokensGo endsWithSpaceFrom startsWithSpace].
  destruct (JS.isWhiteSpace c).
  - destruct (JS.splitRunsGo JS.isWhiteSpace true s) as [p ps].
    cbn [snd List.length] in *. lia.
  - destruct (JS.splitRunsGo JS.isWhiteSpace false s) as [p ps].
    cbn [snd List.length] in *. lia.
Qed.

(** C1, as the code has it.  The score of an analysis is 100, minus 15
    for each finding of the deduplicated list, minus 10 more for each
    finding of severity high, plus 5 when the text has more than 20
    pieces between its runs of white space and 10 more when it has more
    than 50, clamped to the interval from 0 to 100 (rounding changes
    nothing on an integer); so it lies between 0 and 100.  The pieces
    are the whitespace-delimited tokens and one empty piece for white
    space at the start of the text and one for white space at its end. *)
Theorem clarity_score_formula (text : string) :
  let r := analyzeTextForGaps text in
  let n := Z.of_nat (List.length (gaps r)) in
  let h := Z.of_nat (List.length
                       (filter (fun g => Severity_eqb (severity g) high) (gaps r))) in
  (overall_clarity_score r
   = Z.max 0 (Z.min 100
                (100 - 15 * n - 10 * h
                 + (if (20 <? pieceCount text)%nat then 5 else 0)
                 + (if (50 <? pieceCount text)%nat then 10 else 0)))
   /\ 0 <= overall_clarity_score r <= 100)%Z.
Proof.
  cbn zeta. split.
  - unfold analyzeTextForGaps; cbn [overall_clarity_score gaps].
    rewrite calculateClarityScore_eq, wordCount_pieceCount.
    unfold lengthBonus. f_equal. f_equal. lia.
  - apply calculateClarityScore_bounds.
Qed.

(** C1 fails as stated: "good" followed by 19 times "a" and a space has
    20 tokens, so no bonus is due and the score would be 75; the white
    space at the end makes a 21st piece, and the score is 80. *)
Lemma clarity_score_tokens_fails :
  let text := "good a a a a a a a a a a a a a a a a a a a " in
  let r := analyzeTextForGaps text in
  let n := Z.of_nat (List.length (gaps r)) in
  let h := Z.of_nat (List.length
                       (filter (fun g => Severity_eqb (severity g) high) (gaps r))) in
  tokenCount text = 20
  /\ overall_clarity_score r = 80%Z
  /\ overall_clarity_score r
     <> Z.max 0 (Z.min 100
                   (100 - 15 * n - 10 * h
                    + (if (20 <? tokenCount text)%nat then 5 else 0)
                    + (if (50 <? tokenCount text)%nat then 10 else 0)))%Z.
Proof.
  cbn zeta. split; [reflexivity|]. split; [reflexivity|].
  vm_compute. discriminate.
Qed.

(** ** Severities *)

Lemma scanIndicators_In table mk text g :
  In g (scanIndicators table mk text) ->
  exists indicator, In indicator table /\ g = mk indicator.
Proof.
  unfold scanIndicators. rewrite in_flat_map. intros (ind & Hin & Hg).
  exists ind. split; [exact Hin|].
  destruct (JS.includes _ _); simpl in Hg; intuition congruence.
Qed.

Lemma findMissingContext_In text g :
  In g (findMissingContext text) ->
  exists index sentence indicator,
    In (index, sentence) (JS.indexed (sentencesOf text))
    /\ In indicator CONTEXT_INDICATORS
    /\ In g (contextGaps index sentence indicator).
Proof.
  unfold findMissingContext. rewrite in_flat_map.
  intros ([index sentence] & Hs & Hg). rewrite in_flat_map in Hg.
  destruct Hg as (ind & Hind & Hg). now exists index, sentence, ind.
Qed.

Lemma contextGaps_In index sentence indicator g :
  In g (contextGaps index sentence indicator) ->
  g = contextFinding indicator index.
Proof.
  unfold contextGaps.
  destruct (JS.includes _ _); [|intros []].
  destruct (_ <? _)%nat; simpl; intuition congruence.
Qed.

Lemma allGaps_severity text g :
  In g (allGaps text) -> severity g = severityOf (category g).
Proof.
  unfold allGaps. rewrite !in_app_iff. intros [H | [H | [H | H]]].
  - apply findMissingContext_In in H. destruct H as (i & s & ind & _ & _ & H).
    apply contextGaps_In in H. now subst.
  - apply scanIndicators_In in H. destruct H as (ind & _ & ->). reflexivity.
  - apply scanIndicators_In in H. destruct H as (ind & _ & ->). reflexivity.
  - apply scanIndicators_In in H. destruct H as (ind & _ & ->). reflexivity.
Qed.

Lemma uniqueByDescription_incl self g :
  In g (uniqueByDescription self) -> In g self.
Proof.
  unfold uniqueByDescription, JS.indexed. rewrite in_map_iff.
  intros ([i g'] & <- & H). apply filter_In in H. destruct H as [H _].
  now apply in_combine_r in H.
Qed.

(** C10. A finding that a rule emits, and so a finding of an analysis,
    has severity high when its category is ambiguous_requirement and
    medium otherwise; none has severity low. *)
Theorem severity_by_category (text : string) (g : Finding) :
  In g (allGaps text) \/ In g (gaps (analyzeTextForGaps text)) ->
  severity g = (if Category_eqb (category g) ambiguous_requirement
                then high else medium)
  /\ severity g <> low.
Proof.
  intros H.
  assert (Hall : In g (allGaps text)).
  { destruct H as [H | H]; [exact H|].
    now apply uniqueByDescription_incl in H. }
  apply allGaps_severity in Hall. rewrite Hall.
  destruct (category g); simpl; split; congruence.
Qed.

Lemma severity_by_category_witness :
  In (ambiguityFinding "good") (gaps (analyzeTextForGaps "Make something good"))
  /\ severity (ambiguityFinding "good") = high
  /\ severity (ambiguityFinding "good") <> low.
Proof.
  assert (H : In (ambiguityFinding "good")
                 (gaps (analyzeTextForGaps "Make something good"))).
  { vm_compute. left. reflexivity. }
  split; [exact H|].
  exact (severity_by_category "Make something good" (ambiguityFinding "good")
                              (or_intror H)).
Defined.

(** ** The scenario of a vague prompt *)

(** C7. For "Make something good" the analysis has a finding of category
    ambiguous_requirement for "good" and one of category unclear_output
    for "something", and the score, 60, is below 100. *)
Theorem make_something_good :
  let r := analyzeTextForGaps "Make something good" in
  In (ambiguityFinding "good") (gaps r)
  /\ category (ambiguityFinding "good") = ambiguous_requirement
  /\ In (outputFinding "something") (gaps r)
  /\ category (outputFinding "something") = unclear_output
  /\ overall_clarity_score r = 60%Z
  /\ (overall_clarity_score r < 100)%Z.
Proof.
  vm_compute. repeat split; auto.
Qed.

(** ** Deduplication *)

Lemma existsb_ext_In (A : Type) (p : A -> bool) (l1 l2 : list A) :
  (forall x, In x l1 <-> In x l2) -> existsb p l1 = existsb p l2.
Proof.
  intros H. apply eq_true_iff_eq. rewrite !existsb_exists.
  split; intros (x & Hx & Hp); exists x; split; auto; now apply H.
Qed.

Lemma firstOccurrences_ext l : forall seen1 seen2,
  (forall d, In d seen1 <-> In d seen2) ->
  firstOccurrences seen1 l = firstOccurrences seen2 l.
Proof.
  induction l as [|g r IH]; intros seen1 seen2 H; simpl; [reflexivity|].
  rewrite (existsb_ext_In _ _ seen1 seen2 H).
  destruct (existsb _ seen2); [now apply IH|].
  f_equal. apply IH. intros d; simpl. now rewrite H.
Qed.

Lemma findIndex_lower (A : Type) (p : A -> bool) (l : list A) :
  (-1 <= JS.findIndex p l)%Z.
Proof.
  induction l as [|x l IH]; simpl; [lia|].
  destruct (p x); [lia|]. destruct (JS.findIndex p l); lia.
Qed.

Lemma findIndex_first (A : Type) (p : A -> bool) (x : A) (r : list A) :
  p x = true -> forall pre,
  JS.findIndex p (pre ++ x :: r) = Z.of_nat (List.length pre)
  <-> existsb p pre = false.
Proof.
  intros Hx. induction pre as [|a pre IH]; simpl.
  - rewrite Hx. tauto.
  - destruct (p a); simpl.
    + split; [lia | discriminate].
    + rewrite <- IH. pose proof (findIndex_lower A p (pre ++ x :: r)).
      destruct (JS.findIndex p (pre ++ x :: r)); lia.
Qed.

Lemma uniqueByDescription_gen l : forall pre,
  map snd
      (filter (fun '(index, gap) =>
                 Z.eqb (Z.of_nat index)
                       (JS.findIndex
                          (fun g => description g =? description gap)
                          (pre ++ l)%list))
              (combine (seq (List.length pre) (List.length l)) l))
  = firstOccurrences (map description pre) l.
Proof.
  induction l as [|g r IH]; intros pre; [reflexivity|].
  cbn [List.length seq combine filter firstOccurrences].
  assert (Hnext :
    map snd
      (filter (fun '(index, gap) =>
                 Z.eqb (Z.of_nat index)
                       (JS.findIndex
                          (fun g0 => description g0 =? description gap)
                          (pre ++ g :: r)%list))
              (combine (seq (S (List.length pre)) (List.length r)) r))
    = firstOccurrences (map description (pre ++ [g])%list) r).
  { specialize (IH (pre ++ [g])%list).
    rewrite <- app_assoc in IH. simpl in IH.
    rewrite length_app in IH. simpl in IH.
    rewrite Nat.add_1_r in IH. exact IH. }
  assert (Hseen : existsb (String.eqb (description g)) (map description pre)
                  = existsb (fun g0 => description g0 =? description g) pre).
  { clear. induction pre as [|a pre IH]; simpl; [reflexivity|].
    now rewrite IH, String.eqb_sym. }
  rewrite Hseen.
  pose proof (findIndex_first Finding
                (fun g0 => description g0 =? description g) g r
                (String.eqb_refl _) pre) as Hfirst.
  destruct (existsb (fun g0 => description g0 =? description g) pre) eqn:E.
  - assert (Hne : Z.eqb (Z.of_nat (List.length pre))
                        (JS.findIndex
                           (fun g0 => description g0 =? description g)
                           (pre ++ g :: r)%list) = false).
    { apply Z.eqb_neq. intros Heq. symmetry in Heq.
      apply Hfirst in Heq. discriminate. }
    rewrite Hne, Hnext.
    apply firstOccurrences_ext. intros d.
    rewrite map_app, in_app_iff. simpl. split; [|tauto].
    intros [H | [<- | []]]; [exact H|].
    apply existsb_exists in E. destruct E as (a & Ha & Hd).
    apply String.eqb_eq in Hd. rewrite <- Hd. now apply in_map.
  - assert (Heq : Z.eqb (Z.of_nat (List.length pre))
                        (JS.findIndex
                           (fun g0 => description g0 =? description g)
                           (pre ++ g :: r)%list) = true).
    { apply Z.eqb_eq. symmetry. now apply Hfirst. }
    rewrite Heq. cbn [map snd]. f_equal. rewrite Hnext.
    apply firstOccurrences_ext. intros d.
    rewrite map_app, in_app_iff. simpl. tauto.
Qed.

Lemma uniqueByDescription_firstOccurrences self :
  uniqueByDescription self = firstOccurrences [] self.
Proof. exact (uniqueByDescription_gen self []). Qed.

Lemma firstOccurrences_NoDup l : forall seen,
  NoDup (map description (firstOccurrences seen l))
  /\ (forall d, In d (map description (firstOccurrences seen l)) -> ~ In d seen).
Proof.
  induction l as [|g r IH]; intros seen; simpl.
  - split; [constructor | intros d []].
  - destruct (existsb (String.eqb (description g)) seen) eqn:E; [apply IH|].
    destruct (IH (description g :: seen)) as [Hnd Hfresh].
    simpl. split.
    + constructor; [|exact Hnd]. intros Hin.
      apply Hfresh in Hin. apply Hin. now left.
    + intros d [<- | Hin].
      * intros Hin. apply Bool.not_true_iff_false in E. apply E.
        apply existsb_exists. exists (description g).
        split; [exact Hin | apply String.eqb_refl].
      * intros Hs. apply Hfresh in Hin. apply Hin. now right.
Qed.

(** C4. The findings of an analysis have pairwise different descriptions,
    and they are the first occurrences, in order, of the descriptions in
    the concatenation of the outputs of the four rules taken in the order
    context, ambiguity, output, constraints. *)
Theorem gaps_unique_in_order (text : string) :
  let all := (findMissingContext text ++ findAmbiguousRequirements text
              ++ findUnclearOutputs text ++ findMissingConstraints text)%list in
  NoDup (map description (gaps (analyzeTextForGaps text)))
  /\ gaps (analyzeTextForGaps text) = firstOccurrences [] all.
Proof.
  cbn zeta. unfold analyzeTextForGaps; cbn [gaps].
  rewrite uniqueByDescription_firstOccurrences. split.
  - apply firstOccurrences_NoDup.
  - reflexivity.
Qed.

(** ** Facts on strings *)

Lemma append_length (a b : string) :
  length (a ++ b) = length a + length b.
Proof. induction a as [|c a IH]; simpl; [reflexivity | now rewrite IH]. Qed.

Lemma append_cancel_l (p a b : string) : p ++ a = p ++ b -> a = b.
Proof.
  induction p as [|c p IH]; simpl; intros H; [exact H|].
  injection H as H. now apply IH.
Qed.

Lemma append_cancel_r (t : string) : forall a b, a ++ t = b ++ t -> a = b.
Proof.
  induction a as [|c a IH]; intros [|d b] H; simpl in H.
  - reflexivity.
  - apply (f_equal length) in H. simpl in H. rewrite append_length in H. lia.
  - apply (f_equal length) in H. simpl in H. rewrite append_length in H. lia.
  - injection H as -> H. f_equal. now apply IH.
Qed.

Lemma ofNat_inj (n m : nat) : JS.ofNat n = JS.ofNat m -> n = m.
Proof.
  unfold JS.ofNat. intros H.
  apply DecimalNat.Unsigned.to_uint_inj.
  pose proof (NilEmpty.usu (Nat.to_uint n)) as Hn.
  pose proof (NilEmpty.usu (Nat.to_uint m)) as Hm.
  rewrite H in Hn. congruence.
Qed.

Lemma take_cons (k : nat) (c : ascii) (s : string) :
  JS.take (S k) (String c s) = String c (JS.take k s).
Proof. reflexivity. Qed.

Lemma take_0 (s : string) : JS.take 0 s = EmptyString.
Proof. destruct s; reflexivity. Qed.

(** The first piece of a split is the text before the first occurrence of
    the separator, and the whole string when there is none. *)
Lemma split_head (sep s : string) :
  sep <> EmptyString ->
  hd EmptyString (JS.split sep s)
  = match JS.indexOf sep s with
    | Some k => JS.take k s
    | None => s
    end.
Proof.
  intros Hsep. unfold JS.split.
  destruct sep as [|a sep']; [congruence|]. clear Hsep.
  set (sep := String a sep').
  assert (H : fst (JS.splitGo sep 0 s)
              = match JS.indexOf sep s with
                | Some k => JS.take k s
                | None => s
                end).
  { induction s as [|c s IH].
    - reflexivity.
    - cbn [JS.splitGo JS.indexOf].
      destruct (prefix sep (String c s)) eqn:E.
      + destruct (JS.splitGo sep (length sep - 1) s). apply eq_sym, take_0.
      + destruct (JS.splitGo sep 0 s) as [p ps]. cbn [fst] in *.
        rewrite IH. destruct (JS.indexOf sep s); reflexivity. }
  destruct (JS.splitGo sep 0 s) as [p ps]. exact H.
Qed.

Lemma indexed_In (A : Type) (l : list A) (i : nat) (x : A) :
  In (i, x) (JS.indexed l) <-> nth_error l i = Some x.
Proof.
  unfold JS.indexed.
  assert (H : forall (l : list A) start i x,
             In (i, x) (combine (seq start (List.length l)) l)
             <-> (start <= i /\ nth_error l (i - start) = Some x)).
  { clear. induction l as [|a l IH]; intros start i x; simpl.
    - split; [intros [] | intros [_ H]]. now destruct (i - start).
    - rewrite IH. split.
      + intros [H | [Hle H]].
        * injection H as <- <-. rewrite Nat.sub_diag. now split.
        * split; [lia|]. replace (i - start) with (S (i - S start)) by lia.
          exact H.
      + intros [Hle H]. destruct (i - start) as [|k] eqn:E.
        * left. injection H as <-. f_equal. lia.
        * right. split; [lia|]. replace (i - S start) with k by lia. exact H. }
  rewrite H, Nat.sub_0_r. split; [tauto | intros; split; [lia | assumption]].
Qed.

(** ** The missing-context rule *)

Lemma contextFinding_inj (ind ind' : string) (i i' : nat) :
  contextFinding ind i = contextFinding ind' i' -> ind = ind' /\ i = i'.
Proof.
  unfold contextFinding. intros H. injection H as Hd Hs.
  apply append_cancel_r in Hs. subst ind'. split; [reflexivity|].
  apply append_cancel_l in Hd. repeat (injection Hd as Hd).
  apply ofNat_inj in Hd. lia.
Qed.

Lemma contextGaps_cases (index : nat) (sentence indicator : string) :
  contextGaps index sentence indicator
  = if JS.includes (JS.toLowerCase indicator) (JS.toLowerCase sentence)
       && (length (JS.trim (hd EmptyString (JS.split indicator sentence)))
           <? 10)%nat
    then [contextFinding indicator index] else [].
Proof.
  unfold contextGaps. destruct (JS.includes _ _); [|reflexivity].
  now destruct (_ <? _)%nat.
Qed.

(** A finding for an indicator and a sentence is in the result exactly
    when that sentence and that indicator pass the two tests of the
    rule. *)
Lemma findMissingContext_emits (text sentence indicator : string) (i : nat) :
  nth_error (sentencesOf text) i = Some sentence ->
  In indicator CONTEXT_INDICATORS ->
  In (contextFinding indicator i) (findMissingContext text)
  <-> JS.includes (JS.toLowerCase indicator) (JS.toLowerCase sentence) = true
      /\ length (JS.trim (hd EmptyString (JS.split indicator sentence))) < 10.
Proof.
  intros Hs Hind. split.
  - intros H. apply findMissingContext_In in H.
    destruct H as (i' & s' & ind' & Hs' & _ & H).
    pose proof (contextGaps_In _ _ _ _ H) as E.
    apply contextFinding_inj in E. destruct E as [<- <-].
    apply indexed_In in Hs'. assert (s' = sentence) by congruence. subst s'.
    rewrite contextGaps_cases in H.
    destruct (JS.includes _ _); [|destruct H].
    destruct (_ <? _)%nat eqn:E; [|destruct H].
    apply Nat.ltb_lt in E. now split.
  - intros [Hinc Hlt]. unfold findMissingContext. apply in_flat_map.
    exists (i, sentence). split; [now apply indexed_In|].
    apply in_flat_map. exists indicator. split; [exact Hind|].
    rewrite contextGaps_cases, Hinc.
    apply Nat.ltb_lt in Hlt. rewrite Hlt. now left.
Qed.

Lemma CONTEXT_INDICATORS_lower (indicator : string) :
  In indicator CONTEXT_INDICATORS ->
  JS.toLowerCase indicator = indicator /\ indicator <> EmptyString.
Proof.
  unfold CONTEXT_INDICATORS. simpl.
  intros H. repeat (destruct H as [<- | H]; [split; [reflexivity | discriminate]|]).
  destruct H.
Qed.

(** C2, as the code has it.  For a sentence in which the first occurrence
    of the indicator, case ignored, is written as in the table (in lower
    case): the finding of category missing_context with severity medium
    that names the indicator and the 1-based index of the sentence is
    emitted exactly when the sentence contains the indicator, case
    ignored, and the text before that occurrence, with the white space at
    its two ends removed, is shorter than 10 characters. *)
Theorem missing_context_rule
  (text sentence indicator : string) (i : nat) :
  nth_error (sentencesOf text) i = Some sentence ->
  In indicator CONTEXT_INDICATORS ->
  JS.indexOf indicator sentence
  = JS.indexOf (JS.toLowerCase indicator) (JS.toLowerCase sentence) ->
  (In (contextFinding indicator i) (findMissingContext text)
   <-> exists k,
        JS.indexOf (JS.toLowerCase indicator) (JS.toLowerCase sentence) = Some k
        /\ length (JS.trim (JS.take k sentence)) < 10)
  /\ category (contextFinding indicator i) = missing_context
  /\ severity (contextFinding indicator i) = medium
  /\ description (contextFinding indicator i)
     = "Unclear reference to " ++ JS.dq ++ indicator ++ JS.dq
       ++ " in sentence " ++ JS.ofNat (i + 1).
Proof.
  intros Hs Hind Hcase. split; [|repeat split].
  rewrite (findMissingContext_emits text sentence indicator i Hs Hind).
  destruct (CONTEXT_INDICATORS_lower indicator Hind) as [Hlow Hne].
  rewrite (split_head indicator sentence Hne), Hcase.
  unfold JS.includes.
  destruct (JS.indexOf (JS.toLowerCase indicator) (JS.toLowerCase sentence))
    as [k|].
  - split.
    + intros [_ H]. now exists k.
    + intros (k' & E & H). injection E as <-. now split.
  - split.
    + intros [H _]. discriminate.
    + intros (k' & E & _). discriminate.
Qed.

Lemma missing_context_rule_witness :
  In (contextFinding "it" 1) (findMissingContext "Go. Please do it now")
  <-> exists k,
       JS.indexOf (JS.toLowerCase "it") (JS.toLowerCase " Please do it now")
       = Some k
       /\ length (JS.trim (JS.take k " Please do it now")) < 10.
Proof.
  refine (proj1 (missing_context_rule "Go. Please do it now"
                   " Please do it now" "it" 1 _ _ _)).
  - reflexivity.
  - simpl. auto.
  - reflexivity.
Defined.

(** C2 fails as stated: in "Go. Please do it now" the second sentence
    holds "it" after 11 characters (a space and "Please do "), which is
    not shorter than 10, and the finding is emitted all the same, the
    text before "it" being measured after trimming. *)
Lemma missing_context_rule_untrimmed_fails :
  ~ (forall (text sentence indicator : string) (i : nat),
       nth_error (sentencesOf text) i = Some sentence ->
       In indicator CONTEXT_INDICATORS ->
       (In (contextFinding indicator i) (findMissingContext text)
        <-> exists k, precedingLength indicator sentence = Some k /\ k < 10)).
Proof.
  intros H.
  specialize (H "Go. Please do it now" " Please do it now" "it" 1
                eq_refl (or_introl eq_refl)).
  destruct H as [H _].
  destruct H as (k & E & Hk).
  - vm_compute. left. reflexivity.
  - vm_compute in E. injection E as <-. lia.
Qed.

(** ** Refinement *)

Lemma matchVagueHere_bound prev s n :
  matchVagueHere prev s = Some n -> 1 <= n <= 6.
Proof.
  unfold matchVagueHere. destruct (wordBoundary prev s); [|discriminate].
  destruct (find _ vagueAdjectives) as [alt|] eqn:E; [|discriminate].
  apply find_some in E. destruct E as [Hin _].
  intros H. injection H as <-. unfold vagueAdjectives in Hin. simpl in Hin.
  repeat (destruct Hin as [<- | Hin]; [simpl; lia|]). destruct Hin.
Qed.

(** The replacement never shortens a text: the phrase that is inserted
    is longer than each adjective it stands for. *)
Lemma replaceVagueGo_length s : forall prev skip,
  length s <= length (replaceVagueGo prev skip s) + skip.
Proof.
  induction s as [|c s IH]; intros prev skip; [simpl; lia|].
  cbn [replaceVagueGo]. destruct skip as [|k].
  - destruct (matchVagueHere prev (String c s)) as [n|] eqn:E.
    + apply matchVagueHere_bound in E.
      rewrite append_length. specialize (IH (Some c) (n - 1)).
      change (length replacement) with 23. simpl. lia.
    + simpl. specialize (IH (Some c) 0). lia.
  - specialize (IH (Some c) k). simpl. lia.
Qed.

Lemma replaceVague_length s : length s <= length (replaceVague s).
Proof.
  unfold replaceVague. pose proof (replaceVagueGo_length s None 0). lia.
Qed.

Lemma addContext_length t : length (addContext t) = 48 + length t.
Proof. reflexivity. Qed.

Lemma addOutput_length t : length (addOutput t) = length t + 100.
Proof. unfold addOutput. rewrite append_length. reflexivity. Qed.

Lemma addConstraints_length t : length (addConstraints t) = length t + 81.
Proof. unfold addConstraints. rewrite append_length. reflexivity. Qed.

Lemma Category_eqb_eq a b : Category_eqb a b = true <-> a = b.
Proof. destruct a, b; simpl; split; congruence. Qed.

Lemma hasCategory_In c found :
  hasCategory c found = true <-> In c (map category found).
Proof.
  unfold hasCategory. rewrite existsb_exists, in_map_iff. split.
  - intros (g & Hin & E). apply Category_eqb_eq in E. now exists g.
  - intros (g & E & Hin). exists g. split; [exact Hin|].
    now apply Category_eqb_eq.
Qed.

Lemma distinctCategories_length found :
  List.length (distinctCategories found)
  = List.length (filter (fun c => hasCategory c found) allCategories).
Proof.
  apply Permutation_length, NoDup_Permutation.
  - apply NoDup_nodup.
  - apply NoDup_filter. unfold allCategories.
    repeat constructor; simpl; intuition discriminate.
  - intros c. unfold distinctCategories.
    rewrite nodup_In, filter_In, hasCategory_In. split; [|tauto].
    intros H. split; [|exact H]. destruct c; simpl; tauto.
Qed.

Lemma rewritten_length (c a o k : bool) (text : string) :
  length text + (if c then 48 else 0) + (if o then 100 else 0)
  + (if k then 81 else 0)
  <= length (rewritten c a o k text).
Proof.
  unfold rewritten.
  pose proof (replaceVague_length text).
  pose proof (replaceVague_length (addContext text)).
  pose proof (addContext_length text).
  destruct c, a, o, k;
    rewrite ?addConstraints_length, ?addOutput_length; lia.
Qed.

(** Case analysis on the four gates of [refinePrompt]. *)
Ltac case_gates :=
  destruct (hasCategory missing_context _),
           (hasCategory ambiguous_requirement _),
           (hasCategory unclear_output _),
           (hasCategory missing_constraints _).

Section Refine.

Variable text : string.

Let found : list Finding := gaps (analyzeTextForGaps text).
Let r : RefinementResult := refinePrompt text.

Lemma improvements_length :
  List.length (improvements r)
  = List.length (filter (fun c => hasCategory c found) allCategories).
Proof.
  subst r found. unfold refinePrompt, step, allCategories.
  cbn [filter fst snd improvements].
  case_gates; reflexivity.
Qed.

Lemma refined_prompt_rewritten :
  refined_prompt r
  = rewritten (hasCategory missing_context found)
              (hasCategory ambiguous_requirement found)
              (hasCategory unclear_output found)
              (hasCategory missing_constraints found) text.
Proof.
  subst r found. unfold refinePrompt, step, rewritten.
  cbn [fst snd refined_prompt].
  case_gates; reflexivity.
Qed.

Lemma refined_changed_iff :
  refined_prompt r <> original_prompt r
  <-> hasCategory missing_context found = true
      \/ hasCategory unclear_output found = true
      \/ hasCategory missing_constraints found = true
      \/ (hasCategory ambiguous_requirement found = true
          /\ replaceVague text <> text).
Proof.
  rewrite refined_prompt_rewritten.
  change (original_prompt r) with text.
  pose proof (rewritten_length (hasCategory missing_context found)
                (hasCategory ambiguous_requirement found)
                (hasCategory unclear_output found)
                (hasCategory missing_constraints found) text) as Hlen.
  destruct (hasCategory missing_context found) eqn:Ec.
  { split; [auto|]. intros _ E. rewrite E in Hlen. lia. }
  destruct (hasCategory unclear_output found) eqn:Eo.
  { split; [auto|]. intros _ E. rewrite E in Hlen. lia. }
  destruct (hasCategory missing_constraints found) eqn:Ek.
  { split; [auto|]. intros _ E. rewrite E in Hlen. lia. }
  unfold rewritten.
  destruct (hasCategory ambiguous_requirement found).
  - split; [auto 6|]. intros [H | [H | [H | [_ H]]]]; try discriminate.
    exact H.
  - split; [intros H; now destruct H|].
    intros [H | [H | [H | [H _]]]]; discriminate.
Qed.

End Refine.

(** C3, as the code has it.  The number of improvements is the number of
    distinct categories among the findings of the analysis of the
    original text, at most 4.  The refined prompt differs from the
    original one exactly when a finding of category missing_context,
    unclear_output or missing_constraints exists, or one of category
    ambiguous_requirement exists and the replacement of the six
    adjectives changes the text; so it differs only if the list of
    improvements is not empty. *)
Theorem refine_improvements (text : string) :
  let found := gaps (analyzeTextForGaps text) in
  let r := refinePrompt text in
  List.length (improvements r) = List.length (distinctCategories found)
  /\ List.length (improvements r) <= 4
  /\ (refined_prompt r <> original_prompt r
      <-> hasCategory missing_context found = true
          \/ hasCategory unclear_output found = true
          \/ hasCategory missing_constraints found = true
          \/ (hasCategory ambiguous_requirement found = true
              /\ replaceVague text <> text))
  /\ (refined_prompt r <> original_prompt r -> improvements r <> []).
Proof.
  cbn zeta.
  assert (Hlen := improvements_length text).
  assert (Hiff := refined_changed_iff text).
  repeat split.
  - now rewrite distinctCategories_length.
  - rewrite Hlen. unfold allCategories. cbn [filter].
    repeat match goal with |- context [if ?b then _ else _] => destruct b end;
      simpl; lia.
  - apply Hiff.
  - apply Hiff.
  - intros Hne Hnil. apply Hiff in Hne.
    rewrite Hnil in Hlen. unfold allCategories in Hlen. cbn [filter] in Hlen.
    destruct Hne as [H | [H | [H | [H _]]]]; rewrite H in Hlen;
      repeat match type of Hlen with
             | context [if ?b then _ else _] => destruct b
             end; discriminate.
Qed.

(** C3 fails as stated: "maybe" yields a finding of category
    ambiguous_requirement, so one improvement is recorded, but none of
    the six adjectives occurs in it and the refined prompt is the
    original one. *)
Lemma refine_unchanged_with_improvement :
  let r := refinePrompt "maybe" in
  ~ (refined_prompt r <> original_prompt r <-> improvements r <> []).
Proof.
  cbn zeta. intros [_ H]. apply H.
  - vm_compute. discriminate.
  - vm_compute. reflexivity.
Qed.

(** ** Conversion *)

Lemma tickingWorld_monotone : monotone tickingWorld.
Proof. intros i j H. simpl. lia. Qed.

Lemma convertPromptToJson_time (text : string) (w : World) :
  processing_time_ms (fst (convertPromptToJson text w))
  = (clock w (S (reads w)) - clock w (reads w))%Z.
Proof.
  unfold convertPromptToJson, bind, Date_now, ret.
  destruct (extractRecord text); reflexivity.
Qed.

(** The extraction raises an exception exactly when the text has no
    sentence that is not blank. *)
Lemma extractRecord_throws (text : string) :
  (exists e, extractRecord text = Throw e) <-> sentencesOf text = [].
Proof.
  unfold extractRecord, extractTask.
  destruct (sentencesOf text) as [|s0 rest].
  - split; [reflexivity | intros _; eexists; reflexivity].
  - destruct (startsWithActionVerb (JS.trim s0));
      (split; [intros [e H]; discriminate | discriminate]).
Qed.

(** C5, as the code has it.  A call of convertPromptToJson returns a
    response and never an exception: with success true and the extracted
    record when the extraction returns, with success false and the
    message of the exception when it throws.  In both cases
    processing_time_ms is the integer difference of the two readings of
    the clock, after and before the extraction; it is not negative
    exactly when the second reading is not below the first. *)
Theorem convert_never_throws (text : string) (w : World) :
  let resp := fst (convertPromptToJson text w) in
  ((exists d, extractRecord text = Ok d
              /\ success resp = true /\ data resp = Some d
              /\ error resp = None)
   \/ (exists e, extractRecord text = Throw e
                 /\ success resp = false /\ data resp = None
                 /\ error resp = Some (message e)))
  /\ processing_time_ms resp = (clock w (S (reads w)) - clock w (reads w))%Z
  /\ ((0 <= processing_time_ms resp)%Z
      <-> (clock w (reads w) <= clock w (S (reads w)))%Z).
Proof.
  cbn zeta. split; [|split].
  - unfold convertPromptToJson, bind, Date_now, ret.
    destruct (extractRecord text) as [d | e]; cbn [fst].
    + left. exists d. repeat split.
    + right. exists e. repeat split.
  - apply convertPromptToJson_time.
  - rewrite convertPromptToJson_time. lia.
Qed.

(** C5 fails as stated: when the clock is set back between the two
    readings, from 5 to 3, processing_time_ms is -2. *)
Lemma convert_time_negative :
  processing_time_ms (fst (convertPromptToJson "Build a website" backWorld))
  = (-2)%Z
  /\ ~ (0 <= processing_time_ms
               (fst (convertPromptToJson "Build a website" backWorld)))%Z.
Proof. split; [reflexivity|]. vm_compute. intros H. now apply H. Qed.

(** With a clock that is never set back the time is not negative. *)
Lemma convert_time_monotone (text : string) (w : World) :
  monotone w -> (0 <= processing_time_ms (fst (convertPromptToJson text w)))%Z.
Proof.
  intros Hmono. rewrite convertPromptToJson_time.
  specialize (Hmono (reads w) (S (reads w))). lia.
Qed.

(** The two shapes of the response do occur. *)
Example convert_success :
  success (fst (convertPromptToJson "Build a website" tickingWorld)) = true.
Proof. reflexivity. Qed.

Example convert_failure :
  fst (convertPromptToJson "..." tickingWorld)
  = {| success := false; data := None;
       error := Some "Cannot read properties of undefined (reading 'trim')";
       processing_time_ms := 1 |}.
Proof. reflexivity. Qed.

(** C6. The response of convertPromptToJson but for processing_time_ms,
    and the findings (in their order) and the score of the gap analyser,
    are functions of the text alone: two runs on the same text agree on
    them, whatever the clock reads, and in particular when the second run
    starts in the world the first one left. *)
Theorem runs_agree (text : string) (w1 w2 : World) :
  let a := fst (convertPromptToJson text w1) in
  let b := fst (convertPromptToJson text w2) in
  let b' := fst (convertPromptToJson text (snd (convertPromptToJson text w1))) in
  (success a = success b /\ data a = data b /\ error a = error b)
  /\ (success a = success b' /\ data a = data b' /\ error a = error b')
  /\ gaps (fst (findClarityGaps text w1)) = gaps (fst (findClarityGaps text w2))
  /\ overall_clarity_score (fst (findClarityGaps text w1))
     = overall_clarity_score (fst (findClarityGaps text w2))
  /\ fst (findClarityGaps text (snd (findClarityGaps text w1)))
     = fst (findClarityGaps text w1).
Proof.
  cbn zeta. unfold convertPromptToJson, findClarityGaps, bind, Date_now, ret.
  destruct (extractRecord text); cbn [fst snd]; repeat split.
Qed.

(** ** Task and outputs *)

(** C8, as the code has it.  The task is the first sentence that is not
    blank with the white space at its two ends removed, whether it begins
    with an action verb or not; for "Generate a product catalog for
    corrugated boxes with pricing and specs" it is the whole text, and the
    primary output is "Catalog". *)
Theorem task_is_trimmed_first_sentence (text s : string) (rest : list string) :
  sentencesOf text = s :: rest ->
  extractTask text = Ok (JS.trim s)
  /\ extractTask
       "Generate a product catalog for corrugated boxes with pricing and specs"
     = Ok "Generate a product catalog for corrugated boxes with pricing and specs"
  /\ startsWithActionVerb
       "Generate a product catalog for corrugated boxes with pricing and specs"
     = true
  /\ primary (extractOutputs
       "Generate a product catalog for corrugated boxes with pricing and specs")
     = "Catalog".
Proof.
  intros Hs. split; [|repeat split].
  unfold extractTask. rewrite Hs.
  now destruct (startsWithActionVerb (JS.trim s)).
Qed.

Lemma task_is_trimmed_first_sentence_witness :
  extractTask " Build a website. Use React" = Ok "Build a website".
Proof.
  exact (proj1 (task_is_trimmed_first_sentence " Build a website. Use React"
                  " Build a website" [" Use React"] eq_refl)).
Defined.

(** C8 fails as stated: the first sentence of " Build a website" is the
    whole text, which starts with a space, and the task is that sentence
    without the space. *)
Lemma task_not_verbatim :
  firstNonEmptySentence " Build a website" = Some " Build a website"
  /\ extractTask " Build a website" = Ok "Build a website"
  /\ extractTask " Build a website" <> Ok " Build a website".
Proof. repeat split. discriminate. Qed.

(** ** Required and optional inputs *)

Lemma pushFirstMatches_none patterns render text :
  forallb (fun pattern => match Regex.exec pattern text with
                          | Some _ => false
                          | None => true
                          end) patterns = true ->
  pushFirstMatches patterns render text = [].
Proof.
  unfold pushFirstMatches.
  induction patterns as [|p ps IH]; simpl; [reflexivity|].
  destruct (Regex.exec p text); [discriminate|]. exact IH.
Qed.

(** C9. When none of the seven data and parameter patterns matches, as
    for "no matching patterns", the required inputs are exactly the two
    generic strings; the optional inputs end with their two generic
    strings for every text, after the captures of the matches, if any. *)
Theorem required_fallback_optional_always (text : string) :
  noInputPattern text = true ->
  extractRequiredInputs text
  = ["Input text or prompt"; "Context or background information"]
  /\ extractRequiredInputs "no matching patterns"
     = ["Input text or prompt"; "Context or background information"]
  /\ (forall t : string,
        extractOptionalInputs t
        = (optionalMatches t
           ++ ["Additional context"; "Preferences or style guidelines"])%list
        /\ skipn (List.length (optionalMatches t)) (extractOptionalInputs t)
           = ["Additional context"; "Preferences or style guidelines"]).
Proof.
  intros Hnone. split; [|split].
  - unfold noInputPattern in Hnone. rewrite forallb_app in Hnone.
    apply andb_prop in Hnone. destruct Hnone as [Hd Hp].
    unfold extractRequiredInputs.
    rewrite (pushFirstMatches_none _ _ _ Hd), (pushFirstMatches_none _ _ _ Hp).
    reflexivity.
  - reflexivity.
  - intros t. split; [reflexivity|].
    unfold extractOptionalInputs. fold (optionalMatches t).
    rewrite skipn_app, Nat.sub_diag, skipn_all. reflexivity.
Qed.

Lemma required_fallback_optional_always_witness :
  extractRequiredInputs "Run the process."
  = ["Input text or prompt"; "Context or background information"].
Proof.
  exact (proj1 (required_fallback_optional_always "Run the process." eq_refl)).
Defined.

(** The asymmetry: with a match the required inputs hold no generic
    string, the optional inputs still do. *)
Example inputs_with_matches :
  extractRequiredInputs "Use customer data and optional filters"
  = ["customer data/information"]
  /\ extractOptionalInputs "Use customer data and optional filters"
     = ["filters"; "Additional context"; "Preferences or style guidelines"].
Proof. split; reflexivity. Qed.

(** * Further properties *)

(** ** The deduplication removes nothing *)

Lemma firstOccurrences_id l : forall seen,
  NoDup (map description l) ->
  (forall d, In d seen -> ~ In d (map description l)) ->
  firstOccurrences seen l = l.
Proof.
  induction l as [|g r IH]; intros seen Hnd Hseen; simpl; [reflexivity|].
  simpl in Hnd. apply NoDup_cons_iff in Hnd. destruct Hnd as [Hg Hr].
  destruct (existsb (String.eqb (description g)) seen) eqn:E.
  - apply existsb_exists in E. destruct E as (d & Hd & E).
    apply String.eqb_eq in E. subst d.
    exfalso. apply (Hseen _ Hd). now left.
  - f_equal. apply IH; [exact Hr|].
    intros d [<- | Hd]; [exact Hg|].
    intros Hin. apply (Hseen d Hd). now right.
Qed.

(** Values that come from different elements of [l] have different tags
    as soon as the tag tells the key of the element. *)
Lemma NoDup_map_flat_map (A B T K : Type) (tag : B -> T) (key : A -> K)
  (g : A -> list B) (l : list A) :
  NoDup (map key l) ->
  (forall a, In a l -> NoDup (map tag (g a))) ->
  (forall a a' b b', In a l -> In a' l -> In b (g a) -> In b' (g a') ->
                     tag b = tag b' -> key a = key a') ->
  NoDup (map tag (flat_map g l)).
Proof.
  induction l as [|a l IH]; intros Hkey Hin Hsame; simpl; [constructor|].
  simpl in Hkey. apply NoDup_cons_iff in Hkey. destruct Hkey as [Ha Hl].
  rewrite map_app. apply NoDup_app.
  - apply Hin. now left.
  - apply IH; [exact Hl | intros; apply Hin; now right |].
    intros a1 a2 b1 b2 H1 H2. apply Hsame; now right.
  - intros t Ht Ht'. apply in_map_iff in Ht. destruct Ht as (b & <- & Hb).
    apply in_map_iff in Ht'. destruct Ht' as (b' & E & Hb').
    apply in_flat_map in Hb'. destruct Hb' as (a' & Ha' & Hb').
    apply Ha. apply in_map_iff. exists a'. split; [|exact Ha'].
    symmetry. apply (Hsame a a' b b'); auto; [now left | now right].
Qed.

Lemma scanIndicators_NoDup table mk text :
  NoDup table ->
  (forall a b, description (mk a) = description (mk b) -> a = b) ->
  NoDup (map description (scanIndicators table mk text)).
Proof.
  intros Hnd Hinj. unfold scanIndicators.
  apply (NoDup_map_flat_map _ _ _ _ description (fun a : string => a)).
  - now rewrite map_id.
  - intros a _. destruct (JS.includes _ _); simpl; repeat constructor. auto.
  - intros a a' b b' _ _ Hb Hb' E.
    destruct (JS.includes (JS.toLowerCase a) _); [|destruct Hb].
    destruct (JS.includes (JS.toLowerCase a') _); [|destruct Hb'].
    destruct Hb as [<- | []].
    destruct Hb' as [<- | []]. now apply Hinj.
Qed.

Lemma quoted_inj (p a b : string) :
  p ++ JS.dq ++ a ++ JS.dq = p ++ JS.dq ++ b ++ JS.dq -> a = b.
Proof.
  intros H. apply append_cancel_l, append_cancel_l in H.
  now apply append_cancel_r in H.
Qed.

Lemma map_fst_combine_seq (A : Type) (l : list A) (start : nat) :
  map fst (combine (seq start (List.length l)) l) = seq start (List.length l).
Proof.
  revert start. induction l as [|a l IH]; intros start; simpl; [reflexivity|].
  now rewrite IH.
Qed.

Ltac distinct_strings :=
  repeat (constructor; [simpl; intuition discriminate|]); constructor.

Lemma indicator_tables_NoDup :
  NoDup CONTEXT_INDICATORS /\ NoDup AMBIGUITY_INDICATORS
  /\ NoDup OUTPUT_INDICATORS /\ NoDup CONSTRAINT_INDICATORS.
Proof. repeat split; distinct_strings. Qed.

(** The description of a context finding tells the indicator and the
    sentence, for the indicators of the table. *)
Lemma contextFinding_description_inj (ind ind' : string) (i i' : nat) :
  In ind CONTEXT_INDICATORS -> In ind' CONTEXT_INDICATORS ->
  description (contextFinding ind i) = description (contextFinding ind' i') ->
  ind = ind' /\ i = i'.
Proof.
  unfold CONTEXT_INDICATORS. intros Hin Hin' H.
  cbn [description contextFinding] in H. apply append_cancel_l in H.
  simpl in Hin.
  repeat (destruct Hin as [<- | Hin];
          [ simpl in Hin';
            repeat (destruct Hin' as [<- | Hin'];
                    [ simpl in H;
                      first [ discriminate H
                            | split; [reflexivity|];
                              repeat (injection H as H);
                              apply ofNat_inj in H; lia ] |]);
            destruct Hin' |]).
  destruct Hin.
Qed.

Lemma findMissingContext_NoDup text :
  NoDup (map description (findMissingContext text)).
Proof.
  destruct indicator_tables_NoDup as [Hctx _].
  unfold findMissingContext.
  apply (NoDup_map_flat_map _ _ _ _ description (fun p : nat * string => fst p)).
  - unfold JS.indexed. rewrite map_fst_combine_seq. apply seq_NoDup.
  - intros [index sentence] _.
    apply (NoDup_map_flat_map _ _ _ _ description (fun a : string => a)).
    + now rewrite map_id.
    + intros a _. rewrite contextGaps_cases.
      destruct (_ && _); simpl; repeat constructor. auto.
    + intros a a' b b' Ha Ha' Hb Hb' E.
      apply contextGaps_In in Hb, Hb'. subst b b'.
      now apply contextFinding_description_inj in E.
  - intros [i s] [i' s'] b b' _ _ Hb Hb' E.
    apply in_flat_map in Hb, Hb'.
    destruct Hb as (a & Ha & Hb). destruct Hb' as (a' & Ha' & Hb').
    apply contextGaps_In in Hb, Hb'. subst b b'.
    now apply contextFinding_description_inj in E.
Qed.

(** The ninth character of a description tells the rule it comes from. *)
Lemma rule_marks text d :
  (In d (map description (findMissingContext text)) -> get 8 d = Some "r"%char)
  /\ (In d (map description (findAmbiguousRequirements text))
      -> get 8 d = Some "q"%char)
  /\ (In d (map description (findUnclearOutputs text)) -> get 8 d = Some "o"%char)
  /\ (In d (map description (findMissingConstraints text))
      -> get 8 d = Some "c"%char).
Proof.
  repeat split; intros H; apply in_map_iff in H; destruct H as (g & <- & H).
  - apply findMissingContext_In in H. destruct H as (i & s & ind & _ & _ & H).
    apply contextGaps_In in H. now subst.
  - apply scanIndicators_In in H. destruct H as (ind & _ & ->). reflexivity.
  - apply scanIndicators_In in H. destruct H as (ind & _ & ->). reflexivity.
  - apply scanIndicators_In in H. destruct H as (ind & _ & ->). reflexivity.
Qed.

Lemma allGaps_NoDup text : NoDup (map description (allGaps text)).
Proof.
  destruct indicator_tables_NoDup as (_ & Hamb & Hout & Hcons).
  unfold allGaps. rewrite !map_app.
  pose proof (rule_marks text) as Hmark.
  apply NoDup_app; [apply findMissingContext_NoDup | apply NoDup_app |].
  - apply scanIndicators_NoDup; [exact Hamb|]. intros a b. apply quoted_inj.
  - apply NoDup_app.
    + apply scanIndicators_NoDup; [exact Hout|]. intros a b. apply quoted_inj.
    + apply scanIndicators_NoDup; [exact Hcons|]. intros a b. apply quoted_inj.
    + intros d H1 H2. apply Hmark in H1, H2. congruence.
  - intros d H1 H2. rewrite in_app_iff in H2.
    destruct H2 as [H2 | H2]; apply Hmark in H1, H2; congruence.
  - intros d H1 H2. rewrite !in_app_iff in H2.
    destruct H2 as [H2 | [H2 | H2]]; apply Hmark in H1, H2; congruence.
Qed.

Lemma analysis_gaps_all (text : string) :
  gaps (analyzeTextForGaps text) = allGaps text.
Proof.
  unfold analyzeTextForGaps; cbn [gaps].
  rewrite uniqueByDescription_firstOccurrences.
  apply firstOccurrences_id; [apply allGaps_NoDup | intros d []].
Qed.

(** X1. The descriptions that the four rules produce for a text are
    pairwise different already, so the filter of analyzeTextForGaps keeps
    every finding: the findings of an analysis are the concatenation of
    the outputs of the four rules. *)
Theorem deduplication_keeps_all (text : string) :
  gaps (analyzeTextForGaps text)
  = (findMissingContext text ++ findAmbiguousRequirements text
     ++ findUnclearOutputs text ++ findMissingConstraints text)%list
  /\ NoDup (map description
              (findMissingContext text ++ findAmbiguousRequirements text
               ++ findUnclearOutputs text ++ findMissingConstraints text)%list).
Proof.
  split; [apply analysis_gaps_all | apply allGaps_NoDup].
Qed.

(** ** The score at its ends *)

Lemma lengthBonus_range (words : nat) :
  (0 <= lengthBonus words <= 15)%Z
  /\ (lengthBonus words = 15%Z <-> 50 < words).
Proof.
  unfold lengthBonus.
  destruct (Nat.ltb_spec 20 words), (Nat.ltb_spec 50 words);
    repeat split; intros; lia.
Qed.

(** X2. The score is 100 in two cases only: there is no finding, or
    there is one finding, not of severity high, in a text that splits
    into more than 50 pieces, where the bonus of 15 makes up for the
    penalty.  So a score of 100 does not tell that nothing was found. *)
Theorem perfect_score_iff (text : string) (found : list Finding) :
  calculateClarityScore text found = 100%Z
  <-> found = []
      \/ (List.length found = 1
          /\ filter (fun g => Severity_eqb (severity g) high) found = []
          /\ 50 < wordCount text).
Proof.
  rewrite calculateClarityScore_eq.
  destruct (lengthBonus_range (wordCount text)) as [Hb H15].
  pose proof (filter_length_le (fun g => Severity_eqb (severity g) high) found)
    as Hle.
  split.
  - intros H. destruct found as [|g rest]; [now left|]. right.
    cbn [List.length] in *.
    destruct (filter _ (g :: rest)) as [|h hs] eqn:E; cbn [List.length] in *.
    + assert (Hr : List.length rest = 0) by lia.
      repeat split; [now rewrite Hr | apply H15; lia].
    + lia.
  - intros [-> | (Hlen & Hhigh & Hw)].
    + cbn [List.length filter]. lia.
    + rewrite Hhigh, Hlen. apply H15 in Hw. cbn [List.length]. lia.
Qed.

(** X3. One more finding never raises the score; a finding of severity
    high keeps it at 90 or below; eight findings or more bring it to 0. *)
Theorem score_decreases (text : string) (g : Finding) (found : list Finding) :
  (calculateClarityScore text (g :: found)
   <= calculateClarityScore text found)%Z
  /\ (severity g = high ->
      (calculateClarityScore text (g :: found) <= 90)%Z)
  /\ (8 <= List.length found -> calculateClarityScore text found = 0%Z).
Proof.
  rewrite !calculateClarityScore_eq.
  destruct (lengthBonus_range (wordCount text)) as [Hb _].
  cbn [filter List.length].
  repeat split.
  - destruct (Severity_eqb (severity g) high); cbn [List.length]; lia.
  - intros ->. cbn [Severity_eqb List.length]. lia.
  - intros H. lia.
Qed.

(** ** Trimming and splitting *)

Lemma trimEnd_empty_iff s : JS.trimEnd s = EmptyString <-> blank s = true.
Proof.
  unfold blank. induction s as [|c s IH]; simpl; [tauto|].
  destruct (JS.trimEnd s) as [|d r].
  - destruct (JS.isWhiteSpace c); simpl.
    + rewrite <- IH. tauto.
    + split; discriminate.
  - split; [discriminate|]. intros H. apply andb_prop in H.
    destruct H as [_ H]. apply IH in H. discriminate.
Qed.

Lemma trimStart_blank s : blank (JS.trimStart s) = blank s.
Proof.
  unfold blank. induction s as [|c s IH]; simpl; [reflexivity|].
  destruct (JS.isWhiteSpace c) eqn:E; simpl; [exact IH | now rewrite E].
Qed.

Lemma trim_empty_iff s : JS.trim s = EmptyString <-> blank s = true.
Proof. unfold JS.trim. now rewrite trimEnd_empty_iff, trimStart_blank. Qed.

Lemma length_zero_iff (s : string) : length s = 0 <-> s = EmptyString.
Proof. destruct s; simpl; split; congruence. Qed.

Lemma trimEnd_cons c s :
  JS.trimEnd (String c s)
  = match JS.trimEnd s with
    | EmptyString => if JS.isWhiteSpace c then EmptyString
                     else String c EmptyString
    | r => String c r
    end.
Proof. reflexivity. Qed.

Lemma trimEnd_idem s : JS.trimEnd (JS.trimEnd s) = JS.trimEnd s.
Proof.
  induction s as [|c s IH]; [reflexivity|].
  rewrite (trimEnd_cons c s).
  destruct (JS.trimEnd s) as [|d r] eqn:E.
  - destruct (JS.isWhiteSpace c) eqn:W; simpl; [reflexivity | now rewrite W].
  - rewrite trimEnd_cons, IH. reflexivity.
Qed.

Lemma trimStart_clean s : startsClean (JS.trimStart s) = true.
Proof.
  induction s as [|c s IH]; simpl; [reflexivity|].
  destruct (JS.isWhiteSpace c) eqn:E; simpl; [exact IH | now rewrite E].
Qed.

Lemma trimStart_of_clean s : startsClean s = true -> JS.trimStart s = s.
Proof.
  destruct s as [|c s]; simpl; [reflexivity|].
  now destruct (JS.isWhiteSpace c).
Qed.

Lemma trimEnd_clean s : startsClean s = true -> startsClean (JS.trimEnd s) = true.
Proof.
  destruct s as [|c s]; [reflexivity|]. intros H.
  rewrite trimEnd_cons. simpl in H.
  destruct (JS.trimEnd s); simpl; [|exact H].
  destruct (JS.isWhiteSpace c) eqn:E; simpl; [reflexivity | now rewrite E].
Qed.

Lemma trim_idem s : JS.trim (JS.trim s) = JS.trim s.
Proof.
  unfold JS.trim.
  rewrite (trimStart_of_clean (JS.trimEnd (JS.trimStart s))).
  - apply trimEnd_idem.
  - apply trimEnd_clean, trimStart_clean.
Qed.

Lemma allChars_trimStart p s :
  allChars p s = true -> allChars p (JS.trimStart s) = true.
Proof.
  induction s as [|c s IH]; simpl; [reflexivity|]. intros H.
  destruct (JS.isWhiteSpace c); [|exact H].
  apply andb_prop in H. now apply IH.
Qed.

Lemma allChars_trimEnd p s :
  allChars p s = true -> allChars p (JS.trimEnd s) = true.
Proof.
  induction s as [|c s IH]; simpl; [reflexivity|]. intros H.
  apply andb_prop in H. destruct H as [Hc Hs]. specialize (IH Hs).
  destruct (JS.trimEnd s) as [|d r].
  - destruct (JS.isWhiteSpace c); simpl; [reflexivity | now rewrite Hc].
  - cbn [allChars] in *. now rewrite Hc.
Qed.

Lemma allChars_trim p s : allChars p s = true -> allChars p (JS.trim s) = true.
Proof. intros H. now apply allChars_trimEnd, allChars_trimStart. Qed.

(** The pieces of a split on a class hold no character of the class, and
    they are all blank exactly when the string has only white space and
    characters of the class. *)
Lemma splitRunsGo_pieces isSep s : forall prevSep,
  let '(p, ps) := JS.splitRunsGo isSep prevSep s in
  forallb (allChars (fun c => negb (isSep c))) (p :: ps) = true
  /\ forallb blank (p :: ps)
     = allChars (fun c => JS.isWhiteSpace c || isSep c) s.
Proof.
  induction s as [|c s IH]; intros prevSep; [now split|].
  cbn [JS.splitRunsGo].
  destruct (isSep c) eqn:E.
  - destruct prevSep.
    + specialize (IH true). destruct (JS.splitRunsGo isSep true s) as [p ps].
      cbn [allChars]. rewrite E, orb_true_r. exact IH.
    + specialize (IH true). destruct (JS.splitRunsGo isSep true s) as [p ps].
      cbn [allChars forallb] in *. rewrite E, orb_true_r. exact IH.
  - specialize (IH false). destruct (JS.splitRunsGo isSep false s) as [p ps].
    unfold blank in *. cbn [allChars forallb] in *.
    rewrite E, orb_false_r. cbn [negb andb]. destruct IH as [H1 H2].
    split; [exact H1|]. now rewrite <- andb_assoc, H2.
Qed.

Lemma filter_nil_iff (A : Type) (f : A -> bool) (l : list A) :
  filter f l = [] <-> forallb (fun x => negb (f x)) l = true.
Proof.
  induction l as [|a l IH]; simpl; [tauto|].
  destruct (f a); simpl; [split; discriminate | exact IH].
Qed.

Lemma forallb_pointwise (A : Type) (f g : A -> bool) (l : list A) :
  (forall x, f x = g x) -> forallb f l = forallb g l.
Proof.
  intros H. induction l as [|a l IH]; simpl; [reflexivity|].
  now rewrite H, IH.
Qed.

Lemma sentencesOf_nil_iff text : sentencesOf text = [] <-> noSentence text = true.
Proof.
  unfold sentencesOf, noSentence, JS.splitRuns.
  pose proof (splitRunsGo_pieces isSentenceEnd text false) as H.
  destruct (JS.splitRunsGo isSentenceEnd false text) as [p ps].
  destruct H as [_ H]. rewrite <- H, filter_nil_iff.
  assert (E : forall s, negb (0 <? length (JS.trim s))%nat = blank s).
  { intros s. apply eq_true_iff_eq. rewrite <- trim_empty_iff, <- length_zero_iff.
    rewrite negb_true_iff, Nat.ltb_ge. lia. }
  rewrite (forallb_pointwise _ _ _ (p :: ps) E). tauto.
Qed.

Lemma sentencesOf_clean text s :
  In s (sentencesOf text) ->
  allChars (fun c => negb (isSentenceEnd c)) s = true
  /\ JS.trim s <> EmptyString.
Proof.
  unfold sentencesOf, JS.splitRuns. intros H.
  pose proof (splitRunsGo_pieces isSentenceEnd text false) as Hp.
  destruct (JS.splitRunsGo isSentenceEnd false text) as [p ps].
  destruct Hp as [Hp _]. apply filter_In in H. destruct H as [Hin Hlen].
  rewrite forallb_forall in Hp. split; [now apply Hp|].
  apply Nat.ltb_lt in Hlen. intros E. rewrite E in Hlen. simpl in Hlen. lia.
Qed.

(** ** When the conversion fails, and what a task looks like *)

(** X4. convertPromptToJson reports a failure exactly for the texts made
    of white space and of the characters '.', '!', '?' only, the empty
    text among them: the error is then the one of reading [trim] of
    [undefined].  Every other text gives a record. *)
Theorem convert_fails_iff (text : string) (w : World) :
  let resp := fst (convertPromptToJson text w) in
  success resp = negb (noSentence text)
  /\ (noSentence text = true ->
      data resp = None
      /\ error resp
         = Some "Cannot read properties of undefined (reading 'trim')")
  /\ (noSentence text = false ->
      exists d, data resp = Some d /\ error resp = None).
Proof.
  cbn zeta. unfold convertPromptToJson, bind, Date_now, ret.
  pose proof (sentencesOf_nil_iff text) as Hnil.
  unfold extractRecord, extractTask.
  destruct (sentencesOf text) as [|s0 rest].
  - assert (E : noSentence text = true) by now apply Hnil.
    rewrite E. cbn [fst success data error message readOfUndefined].
    repeat split. discriminate.
  - assert (E : noSentence text = false).
    { destruct (noSentence text); [|reflexivity].
      destruct Hnil as [_ H]. discriminate (H eq_refl). }
    rewrite E.
    destruct (startsWithActionVerb (JS.trim s0)); cbn [fst success data error];
      (repeat split; [discriminate | discriminate | intros _; eexists; split; reflexivity]).
Qed.

(** X5. The task of a record is never empty, has no white space at its
    ends and holds none of the characters '.', '!', '?'. *)
Theorem task_shape (text : string) (w : World) (d : PromptRecord) :
  data (fst (convertPromptToJson text w)) = Some d ->
  task d <> EmptyString
  /\ JS.trim (task d) = task d
  /\ allChars (fun c => negb (isSentenceEnd c)) (task d) = true.
Proof.
  unfold convertPromptToJson, bind, Date_now, ret.
  unfold extractRecord, extractTask.
  pose proof (sentencesOf_clean text) as Hclean.
  destruct (sentencesOf text) as [|s0 rest]; cbn [fst data]; [discriminate|].
  destruct (Hclean s0 (or_introl eq_refl)) as [Hend Hne].
  assert (H : forall t, Some (A := PromptRecord) t = Some d -> t = d)
    by (intros t E; now injection E).
  destruct (startsWithActionVerb (JS.trim s0)); cbn [fst data];
    intros E; apply H in E; subst d; cbn [task];
    (repeat split; [exact Hne | apply trim_idem | now apply allChars_trim]).
Qed.

Lemma task_shape_witness :
  exists d,
    data (fst (convertPromptToJson " Build a website. Use React" tickingWorld))
    = Some d
    /\ task d = "Build a website"
    /\ task d <> EmptyString
    /\ JS.trim (task d) = task d
    /\ allChars (fun c => negb (isSentenceEnd c)) (task d) = true.
Proof.
  eexists. split; [reflexivity|]. split; [reflexivity|].
  exact (task_shape " Build a website. Use React" tickingWorld _ eq_refl).
Defined.

(** ** The intent *)

Lemma flat_map_step (A B : Type) (f : A -> list B) (x : A) (l : list A) :
  flat_map f (x :: l) = (f x ++ flat_map f l)%list.
Proof. reflexivity. Qed.

Lemma flat_map_nil (A B : Type) (f : A -> list B) (l : list A) :
  (forall x, In x l -> f x = []) -> flat_map f l = [].
Proof.
  induction l as [|a l IH]; intros H; [reflexivity|].
  rewrite flat_map_step, H, IH; [reflexivity | |now left].
  intros x Hx. apply H. now right.
Qed.

Lemma hd_all (A : Type) (P : A -> Prop) (d : A) (l : list A) :
  P d -> (forall x, In x l -> P x) -> P (hd d l).
Proof. destruct l; simpl; auto. Qed.

(** X6. The intent has no white space at its ends, and it is the default
    sentence when no sentence of the text contains, case ignored, one of
    the indicators. *)
Theorem intent_shape (text : string) :
  JS.trim (extractIntent text) = extractIntent text
  /\ (forallb
        (fun sentence =>
           forallb (fun indicator =>
                      negb (JS.includes (JS.toLowerCase indicator)
                                        (JS.toLowerCase sentence)))
                   intentIndicators)
        (sentencesOf text) = true ->
      extractIntent text
      = "To fulfill the specified requirements and deliver the requested output").
Proof.
  unfold extractIntent. split.
  - apply (hd_all _ (fun s => JS.trim s = s)); [reflexivity|].
    intros x H. apply in_flat_map in H. destruct H as (sentence & _ & H).
    apply in_flat_map in H. destruct H as (indicator & _ & H).
    destruct (JS.includes _ _); [|destruct H].
    destruct (_ <? _)%nat; [|destruct H].
    destruct H as [<- | []]. apply trim_idem.
  - intros H. rewrite forallb_forall in H.
    rewrite flat_map_nil; [reflexivity|].
    intros sentence Hs. specialize (H sentence Hs).
    rewrite forallb_forall in H.
    apply flat_map_nil. intros indicator Hi.
    specialize (H indicator Hi). apply negb_true_iff in H. now rewrite H.
Qed.

(** ** Required inputs *)

Lemma pushFirstMatches_In patterns render text x :
  In x (pushFirstMatches patterns render text) -> exists caps, x = render caps.
Proof.
  unfold pushFirstMatches. rewrite in_flat_map. intros (p & _ & H).
  destruct (Regex.exec p text) as [caps|]; [|destruct H].
  destruct H as [<- | []]. now exists caps.
Qed.

Lemma pushFirstMatches_nil patterns render text :
  pushFirstMatches patterns render text = [] ->
  forallb (fun pattern => match Regex.exec pattern text with
                          | Some _ => false
                          | None => true
                          end) patterns = true.
Proof.
  unfold pushFirstMatches.
  induction patterns as [|p ps IH]; [reflexivity|].
  rewrite flat_map_step. cbn [forallb].
  destruct (Regex.exec p text); [discriminate|]. exact IH.
Qed.

Lemma pushFirstMatches_length patterns render text :
  List.length (pushFirstMatches patterns render text) <= List.length patterns.
Proof.
  unfold pushFirstMatches.
  induction patterns as [|p ps IH]; [simpl; lia|].
  rewrite flat_map_step, length_app. cbn [List.length].
  destruct (Regex.exec p text); simpl; lia.
Qed.

Lemma derived_not_generic (cap : string) :
  cap ++ " data/information" <> "Input text or prompt"
  /\ cap ++ " parameters/criteria" <> "Input text or prompt".
Proof.
  split; intros H; pose proof (f_equal length H) as L;
    rewrite append_length in L; simpl in L.
  - destruct cap as [|a [|b [|c [|d r]]]]; simpl in L; try lia.
    simpl in H. discriminate H.
  - destruct cap as [|a r]; simpl in L; try lia. discriminate H.
Qed.

(** X7. The required inputs are the two generic strings exactly when
    none of the seven patterns matches; they are never empty and have at
    most seven entries. *)
Theorem required_generic_iff (text : string) :
  (extractRequiredInputs text
   = ["Input text or prompt"; "Context or background information"]
   <-> noInputPattern text = true)
  /\ 1 <= List.length (extractRequiredInputs text) <= 7.
Proof.
  unfold extractRequiredInputs, noInputPattern.
  set (fromData := pushFirstMatches dataPatterns _ text).
  set (fromParams := pushFirstMatches paramPatterns _ text).
  assert (Hlen : List.length (fromData ++ fromParams)%list <= 7).
  { rewrite length_app.
    pose proof (pushFirstMatches_length dataPatterns
                  (fun caps => Regex.group1 caps ++ " data/information") text).
    pose proof (pushFirstMatches_length paramPatterns
                  (fun caps => Regex.group1 caps ++ " parameters/criteria") text).
    subst fromData fromParams. simpl in *. lia. }
  destruct (fromData ++ fromParams)%list as [|x rest] eqn:E.
  - apply app_eq_nil in E. destruct E as [Ed Ep].
    apply pushFirstMatches_nil in Ed, Ep.
    rewrite forallb_app, Ed, Ep. cbn. split; [tauto | lia].
  - cbn [List.length Nat.eqb] in *. split; [|lia]. split.
    + intros H. injection H as Hx _. exfalso.
      assert (Hin : In x (fromData ++ fromParams)%list)
        by (rewrite E; now left).
      apply in_app_iff in Hin.
      destruct Hin as [Hin | Hin]; apply pushFirstMatches_In in Hin;
        destruct Hin as (caps & Hc); rewrite Hc in Hx;
        now apply (derived_not_generic (Regex.group1 caps)) in Hx.
    + intros H. rewrite forallb_app in H. apply andb_prop in H.
      destruct H as [Hd Hp].
      subst fromData fromParams.
      rewrite (pushFirstMatches_none _ _ _ Hd),
              (pushFirstMatches_none _ _ _ Hp) in E.
      discriminate E.
Qed.

(** ** What the patterns capture *)

Lemma firstDown_some (A : Type) (f : nat -> option A) (k : nat) (a : A) :
  Regex.firstDown f k = Some a -> exists j, 1 <= j <= k /\ f j = Some a.
Proof.
  induction k as [|k IH]; simpl; [discriminate|].
  destruct (f (S k)) as [b|] eqn:E.
  - intros H. injection H as <-. exists (S k). split; [lia | exact E].
  - intros H. destruct (IH H) as (j & Hj & Hf). exists j. split; [lia | exact Hf].
Qed.

Lemma take_run (f : ascii -> bool) (s : string) : forall j,
  1 <= j <= Regex.runLength f s ->
  JS.take j s <> EmptyString /\ allChars f (JS.take j s) = true.
Proof.
  induction s as [|c s IH]; intros j Hj; simpl in Hj; [lia|].
  destruct (f c) eqn:E; [|lia].
  destruct j as [|j]; [lia|]. rewrite take_cons. split; [discriminate|].
  cbn [allChars]. rewrite E. cbn [andb].
  destruct j as [|j]; [now rewrite take_0|].
  apply IH. lia.
Qed.

(** Each capture of a match is a non-empty run of its class. *)
Lemma matchHere_captures r : forall s caps n,
  Regex.matchHere r s = Some (caps, n) ->
  Forall2 runOf (groupClasses r) caps.
Proof.
  induction r as [|a r IH]; intros s caps n H.
  - simpl in H. injection H as <- _. constructor.
  - destruct a as [l | c | c]; cbn [Regex.matchHere groupClasses] in *.
    + destruct (Regex.prefixCI l s); [|discriminate].
      destruct (Regex.matchHere r (JS.drop (length l) s)) as [[caps' n']|] eqn:E;
        [|discriminate].
      injection H as <- _. eapply IH; eassumption.
    + apply firstDown_some in H. destruct H as (j & _ & H).
      destruct (Regex.matchHere r (JS.drop j s)) as [[caps' n']|] eqn:E;
        [|discriminate].
      injection H as <- _. eapply IH; eassumption.
    + apply firstDown_some in H. destruct H as (j & Hj & H).
      destruct (Regex.matchHere r (JS.drop j s)) as [[caps' n']|] eqn:E;
        [|discriminate].
      injection H as <- _. constructor; [|eapply IH; eassumption].
      now apply take_run.
Qed.

Lemma exec_captures r s caps :
  Regex.exec r s = Some caps -> Forall2 runOf (groupClasses r) caps.
Proof.
  induction s as [|c s IH]; cbn [Regex.exec];
    destruct (Regex.matchHere r _) as [[caps' n]|] eqn:E; intros H;
    try discriminate;
    try (injection H as <-; eapply matchHere_captures; eassumption).
  now apply IH.
Qed.

Lemma matchAllGo_captures r s : forall skip caps,
  In caps (Regex.matchAllGo r skip s) -> Forall2 runOf (groupClasses r) caps.
Proof.
  induction s as [|c s IH]; intros skip caps H; cbn [Regex.matchAllGo] in H.
  - destruct skip; [|destruct H].
    destruct (Regex.matchHere r EmptyString) as [[caps' n]|] eqn:E; [|destruct H].
    destruct H as [<- | []]. eapply matchHere_captures; eassumption.
  - destruct skip as [|k]; [|eapply IH; eassumption].
    destruct (Regex.matchHere r (String c s)) as [[caps' n]|] eqn:E.
    + destruct H as [<- | H]; [eapply matchHere_captures; eassumption|].
      eapply IH; eassumption.
    + eapply IH; eassumption.
Qed.

Lemma one_word_capture (caps : list string) :
  Forall2 runOf [Regex.Word] caps ->
  Regex.group1 caps <> EmptyString
  /\ allChars JS.isWordChar (Regex.group1 caps) = true.
Proof.
  intros H. inversion H as [|c w cs ws Hw Hrest]; subst.
  inversion Hrest; subst. exact Hw.
Qed.

(** ** Constraints, optional inputs and outputs *)

(** X8. The constraints end with the two generic strings.  Every entry
    before them is the source of a pattern without its parentheses, that
    is a keyword followed by the characters \s+\w+, then a space and the
    word captured after the keyword, a non-empty run of letters, digits
    and underscores. *)
Theorem constraints_shape (text : string) :
  exists derived,
    extractConstraints text
    = (derived ++ ["Available time and resources"; "Technical limitations"])%list
    /\ forall c, In c derived ->
         exists kw word,
           In kw constraintKeywords
           /\ c = kw ++ "\s+\w+ " ++ word
           /\ word <> EmptyString
           /\ allChars JS.isWordChar word = true.
Proof.
  unfold extractConstraints. eexists. split; [reflexivity|].
  intros c H. apply in_flat_map in H. destruct H as (pattern & Hp & H).
  apply in_map_iff in H. destruct H as (caps & <- & Hcaps).
  unfold constraintPatterns in Hp. apply in_map_iff in Hp.
  destruct Hp as (kw & <- & Hkw).
  apply matchAllGo_captures in Hcaps. apply one_word_capture in Hcaps.
  exists kw, (Regex.group1 caps). split; [exact Hkw|]. split; [|exact Hcaps].
  change constraintKeywords
    with ["within"; "limit"; "maximum"; "minimum"; "only"; "must"; "should"]
    in Hkw.
  simpl in Hkw.
  repeat (destruct Hkw as [<- | Hkw]; [reflexivity|]). destruct Hkw.
Qed.

(** X9. The optional inputs are words captured by the three patterns,
    each a non-empty run of letters, digits and underscores, followed by
    the two generic strings; so they have two entries at least. *)
Theorem optional_shape (text : string) :
  exists words,
    extractOptionalInputs text
    = (words ++ ["Additional context"; "Preferences or style guidelines"])%list
    /\ (forall w, In w words ->
          w <> EmptyString /\ allChars JS.isWordChar w = true)
    /\ 2 <= List.length (extractOptionalInputs text).
Proof.
  unfold extractOptionalInputs. eexists. split; [reflexivity|]. split.
  - intros w H. apply in_flat_map in H. destruct H as (pattern & Hp & H).
    apply in_map_iff in H. destruct H as (caps & <- & Hcaps).
    apply matchAllGo_captures in Hcaps. apply one_word_capture.
    unfold optionalPatterns in Hp. simpl in Hp.
    destruct Hp as [<- | [<- | [<- | []]]]; exact Hcaps.
  - rewrite length_app. simpl. lia.
Qed.

(** X10. In the outputs the primary output is one of ten capitalised
    output types or the fallback sentence, never empty; the format is
    "JSON" when none of the three format patterns matches, otherwise a
    captured word, and what precedes "output" wins over what precedes
    "file", which wins over what precedes "format". *)
Theorem outputs_shape (text : string) :
  let o := extractOutputs text in
  In (primary o) primaryValues
  /\ (format o <> EmptyString /\ allChars JS.isWordChar (format o) = true)
  /\ (forallb (fun pattern => match Regex.exec pattern text with
                              | Some _ => false
                              | None => true
                              end) formatPatterns = true ->
      format o = "JSON")
  /\ (forall caps, Regex.exec (Regex.wordBefore "output") text = Some caps ->
                   format o = Regex.group1 caps)
  /\ (forall caps, Regex.exec (Regex.wordBefore "output") text = None ->
                   Regex.exec (Regex.wordBefore "file") text = Some caps ->
                   format o = Regex.group1 caps).
Proof.
  cbn zeta. unfold extractOutputs. cbn [primary format].
  split; [|split; [|split; [|split]]].
  - destruct (find _ outputTypes) as [type|] eqn:E.
    + apply find_some in E. destruct E as [Hin _].
      unfold outputTypes in Hin. simpl in Hin. unfold primaryValues.
      repeat (destruct Hin as [<- | Hin]; [simpl; tauto|]). destruct Hin.
    + simpl. unfold primaryValues. simpl. tauto.
  - unfold formatPatterns. cbn [map fold_left].
    pose proof (exec_captures (Regex.wordBefore "format") text) as H1.
    pose proof (exec_captures (Regex.wordBefore "file") text) as H2.
    pose proof (exec_captures (Regex.wordBefore "output") text) as H3.
    destruct (Regex.exec (Regex.wordBefore "output") text) as [c3|];
      [exact (one_word_capture c3 (H3 c3 eq_refl))|].
    destruct (Regex.exec (Regex.wordBefore "file") text) as [c2|];
      [exact (one_word_capture c2 (H2 c2 eq_refl))|].
    destruct (Regex.exec (Regex.wordBefore "format") text) as [c1|];
      [exact (one_word_capture c1 (H1 c1 eq_refl))|].
    split; [discriminate | reflexivity].
  - unfold formatPatterns. cbn [map fold_left forallb].
    destruct (Regex.exec (Regex.wordBefore "format") text); [discriminate|].
    destruct (Regex.exec (Regex.wordBefore "file") text); [discriminate|].
    destruct (Regex.exec (Regex.wordBefore "output") text); [discriminate|].
    reflexivity.
  - intros caps H. unfold formatPatterns. cbn [map fold_left].
    now rewrite H.
  - intros caps H3 H2. unfold formatPatterns. cbn [map fold_left].
    now rewrite H3, H2.
Qed.

(** ** Suggestions and improvements *)

Lemma hasCategory_nil_iff found :
  (forall c, In c allCategories -> hasCategory c found = false) <-> found = [].
Proof.
  split.
  - intros H. destruct found as [|g rest]; [reflexivity|].
    specialize (H (category g)).
    assert (Hin : In (category g) allCategories)
      by (unfold allCategories; destruct (category g); simpl; tauto).
    specialize (H Hin). unfold hasCategory in H. cbn [existsb] in H.
    assert (E : Category_eqb (category g) (category g) = true)
      by now apply Category_eqb_eq.
    rewrite E in H. discriminate.
  - intros ->. reflexivity.
Qed.

(** X11. There is one suggestion for each distinct category among the
    findings, so none exactly when there is no finding; and refinePrompt
    records as many improvements as generateClaritySuggestions gives
    suggestions for the findings of the same text. *)
Theorem suggestions_count (found : list Finding) (text : string) :
  List.length (generateClaritySuggestions found)
  = List.length (distinctCategories found)
  /\ (generateClaritySuggestions found = [] <-> found = [])
  /\ List.length (improvements (refinePrompt text))
     = List.length (generateClaritySuggestions (gaps (analyzeTextForGaps text))).
Proof.
  assert (Hlen : forall l,
             List.length (generateClaritySuggestions l)
             = List.length (filter (fun c => hasCategory c l) allCategories)).
  { intros l. unfold generateClaritySuggestions, allCategories. cbn [filter].
    case_gates; reflexivity. }
  split; [|split].
  - now rewrite Hlen, distinctCategories_length.
  - rewrite <- hasCategory_nil_iff. split.
    + intros H c Hc. unfold generateClaritySuggestions in H.
      unfold allCategories in Hc. simpl in Hc.
      destruct (hasCategory missing_context found) eqn:E1; [discriminate|].
      destruct (hasCategory ambiguous_requirement found) eqn:E2; [discriminate|].
      destruct (hasCategory unclear_output found) eqn:E3; [discriminate|].
      destruct (hasCategory missing_constraints found) eqn:E4; [discriminate|].
      destruct Hc as [<- | [<- | [<- | [<- | []]]]]; assumption.
    + intros H. unfold generateClaritySuggestions.
      rewrite !H by (unfold allCategories; simpl; tauto). reflexivity.
  - now rewrite Hlen, improvements_length.
Qed.

(** X12. The improvements of refinePrompt form a chain from the original
    prompt to the refined one: the first starts at the original text,
    each next one starts at the text the previous one produced, and the
    last one ends at the refined prompt.  Their types follow the order
    clarity, specificity, structure, completeness, one for each category
    that has a finding. *)
Theorem improvements_chain (text : string) :
  let r := refinePrompt text in
  let found := gaps (analyzeTextForGaps text) in
  chained (original_prompt r) (improvements r) (refined_prompt r)
  /\ map type (improvements r)
     = map improvementFor (filter (fun c => hasCategory c found) allCategories).
Proof.
  cbn zeta. unfold refinePrompt, step, allCategories.
  cbn [filter fst snd improvements original_prompt refined_prompt].
  case_gates; cbn [fst snd app map chained before after type improvementFor];
    repeat split.
Qed.

(** X13. The refined prompt is never shorter than the original one.
    When no finding of category ambiguous_requirement exists, the
    original text is kept whole in it, after the context sentence and
    before the sentences on output and constraints, each present exactly
    when its category has a finding. *)
Theorem refined_keeps_text (text : string) :
  let r := refinePrompt text in
  let found := gaps (analyzeTextForGaps text) in
  length (original_prompt r) <= length (refined_prompt r)
  /\ (hasCategory ambiguous_requirement found = false ->
      refined_prompt r
      = (if hasCategory missing_context found
         then "Context: This request is for [specify context]. " else "")
        ++ text
        ++ (if hasCategory unclear_output found
            then " The output should be in [specific format] with [specific structure] and include [specific content]."
            else "")
        ++ (if hasCategory missing_constraints found
            then " Constraints: [specify time limits, resource constraints, technical limitations]."
            else "")).
Proof.
  cbn zeta. rewrite refined_prompt_rewritten.
  change (original_prompt (refinePrompt text)) with text. split.
  - pose proof (rewritten_length
                  (hasCategory missing_context (gaps (analyzeTextForGaps text)))
                  (hasCategory ambiguous_requirement (gaps (analyzeTextForGaps text)))
                  (hasCategory unclear_output (gaps (analyzeTextForGaps text)))
                  (hasCategory missing_constraints (gaps (analyzeTextForGaps text)))
                  text). lia.
  - intros ->. unfold rewritten, addContext, addOutput, addConstraints.
    assert (Hnil : forall s : string, s ++ "" = s).
    { induction s as [|c s IH]; simpl; [reflexivity | now rewrite IH]. }
    assert (Hassoc : forall a b c : string, (a ++ b) ++ c = a ++ b ++ c).
    { induction a as [|x a IH]; intros b c; simpl; [reflexivity | now rewrite IH]. }
    destruct (hasCategory missing_context _),
             (hasCategory unclear_output _),
             (hasCategory missing_constraints _);
      rewrite ?Hnil, ?Hassoc; cbn [append]; rewrite ?Hnil; reflexivity.
Qed.

(** ** The missing-context rule when the case differs *)

(** X14. When a sentence holds the indicator in another case only (no
    occurrence written as in the table), the rule measures the whole
    sentence: the finding is emitted exactly when the sentence contains
    the indicator, case ignored, and the trimmed sentence is shorter
    than 10 characters. *)
Theorem missing_context_other_case
  (text sentence indicator : string) (i : nat) :
  nth_error (sentencesOf text) i = Some sentence ->
  In indicator CONTEXT_INDICATORS ->
  JS.indexOf indicator sentence = None ->
  In (contextFinding indicator i) (findMissingContext text)
  <-> JS.includes (JS.toLowerCase indicator) (JS.toLowerCase sentence) = true
      /\ length (JS.trim sentence) < 10.
Proof.
  intros Hs Hind Hnone.
  rewrite (findMissingContext_emits text sentence indicator i Hs Hind).
  destruct (CONTEXT_INDICATORS_lower indicator Hind) as [_ Hne].
  now rewrite (split_head indicator sentence Hne), Hnone.
Qed.

Lemma missing_context_other_case_witness :
  (In (contextFinding "it" 0) (findMissingContext "It works")
   <-> JS.includes (JS.toLowerCase "it") (JS.toLowerCase "It works") = true
       /\ length (JS.trim "It works") < 10)
  /\ (In (contextFinding "it" 0)
         (findMissingContext "It is broken and nobody knows why")
      <-> JS.includes (JS.toLowerCase "it")
                      (JS.toLowerCase "It is broken and nobody knows why") = true
          /\ length (JS.trim "It is broken and nobody knows why") < 10).
Proof.
  split.
  - exact (missing_context_other_case "It works" "It works" "it" 0
             eq_refl (or_introl eq_refl) eq_refl).
  - exact (missing_context_other_case "It is broken and nobody knows why"
             "It is broken and nobody knows why" "it" 0
             eq_refl (or_introl eq_refl) eq_refl).
Defined.

(** ** Blank texts *)

Lemma toLowerCaseChar_space c :
  JS.isWhiteSpace c = true -> JS.toLowerCaseChar c = c.
Proof.
  destruct c as [[] [] [] [] [] [] [] []]; intros H;
    first [reflexivity | discriminate H].
Qed.

Lemma toLowerCase_blank s : blank s = true -> JS.toLowerCase s = s.
Proof.
  unfold blank. induction s as [|c s IH]; simpl; [reflexivity|].
  intros H. apply andb_prop in H. destruct H as [Hc Hs].
  now rewrite (toLowerCaseChar_space c Hc), IH.
Qed.

Lemma indexOf_blank needle s :
  blank s = true -> startsWithInk needle = true -> JS.indexOf needle s = None.
Proof.
  unfold blank. destruct needle as [|c n]; [discriminate|]. simpl. intros Hs Hc.
  induction s as [|d s IH]; [reflexivity|].
  simpl in Hs. apply andb_prop in Hs. destruct Hs as [Hd Hs].
  cbn [JS.indexOf prefix].
  destruct (ascii_dec c d) as [-> | _].
  - rewrite Hd in Hc. discriminate.
  - now rewrite (IH Hs).
Qed.

Lemma scanIndicators_blank table mk text :
  blank text = true ->
  forallb (fun indicator => startsWithInk (JS.toLowerCase indicator)) table
  = true ->
  scanIndicators table mk text = [].
Proof.
  intros Hb Ht. unfold scanIndicators. apply flat_map_nil.
  intros indicator Hin. rewrite forallb_forall in Ht.
  unfold JS.includes.
  now rewrite (toLowerCase_blank text Hb), (indexOf_blank _ _ Hb (Ht _ Hin)).
Qed.

Lemma blank_noSentence text : blank text = true -> noSentence text = true.
Proof.
  unfold blank, noSentence. induction text as [|c s IH]; simpl; [reflexivity|].
  intros H. apply andb_prop in H. destruct H as [Hc Hs].
  now rewrite Hc, IH.
Qed.

Lemma perfect_score_blank text : calculateClarityScore text [] = 100%Z.
Proof.
  rewrite calculateClarityScore_eq.
  destruct (lengthBonus_range (wordCount text)) as [Hb _].
  cbn [List.length filter]. lia.
Qed.

Lemma analyzeTextForGaps_blank (text : string) :
  blank text = true ->
  analyzeTextForGaps text = {| gaps := []; overall_clarity_score := 100 |}.
Proof.
  intros Hb.
  assert (Hall : allGaps text = []).
  { unfold allGaps, findMissingContext, findAmbiguousRequirements,
      findUnclearOutputs, findMissingConstraints.
    assert (Hs : sentencesOf text = [])
      by now apply sentencesOf_nil_iff, blank_noSentence.
    rewrite Hs. rewrite !(scanIndicators_blank _ _ text Hb) by reflexivity.
    reflexivity. }
  unfold analyzeTextForGaps. rewrite Hall.
  unfold uniqueByDescription, JS.indexed. cbn [List.length seq combine filter map].
  f_equal. apply perfect_score_blank.
Qed.

(** X15. A text made of white space only has no finding and the score
    100. *)
Theorem blank_text_analysis (text : string) :
  blank text = true ->
  gaps (analyzeTextForGaps text) = []
  /\ overall_clarity_score (analyzeTextForGaps text) = 100%Z.
Proof. intros Hb. now rewrite (analyzeTextForGaps_blank text Hb). Qed.

Lemma blank_text_analysis_witness :
  gaps (analyzeTextForGaps "   ") = []
  /\ overall_clarity_score (analyzeTextForGaps "   ") = 100%Z.
Proof. exact (blank_text_analysis "   " eq_refl). Defined.

(** ** The command line *)

Lemma blank_test text :
  (text =? EmptyString) || (length (JS.trim text) =? 0)%nat = blank text.
Proof.
  apply eq_true_iff_eq. rewrite orb_true_iff, String.eqb_eq, Nat.eqb_eq.
  rewrite length_zero_iff, trim_empty_iff. split; [|tauto].
  intros [-> | H]; [reflexivity | exact H].
Qed.

(** The two results of convertPromptToJson. *)
Lemma convertPromptToJson_cases (text : string) (w : World) :
  (noSentence text = true
   /\ success (fst (convertPromptToJson text w)) = false
   /\ error (fst (convertPromptToJson text w))
      = Some "Cannot read properties of undefined (reading 'trim')")
  \/ (noSentence text = false
      /\ success (fst (convertPromptToJson text w)) = true).
Proof.
  unfold convertPromptToJson, bind, Date_now, ret.
  pose proof (sentencesOf_nil_iff text) as Hnil.
  unfold extractRecord, extractTask.
  destruct (sentencesOf text) as [|s0 rest].
  - left. split; [now apply Hnil | split; reflexivity].
  - right. split.
    + destruct (noSentence text); [|reflexivity].
      destruct Hnil as [_ H]. discriminate (H eq_refl).
    + now destruct (startsWithActionVerb (JS.trim s0)).
Qed.

Lemma processText_convert (text : string) (w : World) :
  blank text = false ->
  fst (processText text "convert" w)
  = let result := fst (convertPromptToJson text w) in
    if negb (success result) then Exit1 [errorLine (error result)]
    else Printed (ConvertValue result).
Proof.
  intros Hb. unfold processText. rewrite blank_test, Hb.
  cbn [String.eqb Ascii.eqb Bool.eqb andb]. unfold bind.
  destruct (convertPromptToJson text w) as [result w']. cbn [fst].
  now destruct (success result).
Qed.

(** X16. For each of the three commands, processText exits with the line
    "Error: Text input is required" exactly when the text is made of
    white space only (the empty text included), and then it takes no
    reading of the clock. *)
Theorem cli_rejects_blank (text command : string) (w : World) :
  In command ["convert"; "gaps"; "refine"] ->
  (fst (processText text command w) = Exit1 ["Error: Text input is required"]
   <-> blank text = true)
  /\ (blank text = true -> snd (processText text command w) = w).
Proof.
  intros Hc. split.
  - destruct (blank text) eqn:Hb.
    + unfold processText. rewrite blank_test, Hb. now split.
    + split; [|discriminate]. intros H. exfalso.
      destruct Hc as [<- | [<- | [<- | []]]].
      * rewrite (processText_convert text w Hb) in H. cbn zeta in H.
        destruct (convertPromptToJson_cases text w) as [(_ & Hs & He) | (_ & Hs)];
          rewrite Hs in H; cbn [negb] in H; [|discriminate].
        rewrite He in H. discriminate.
      * unfold processText in H. rewrite blank_test, Hb in H. discriminate.
      * unfold processText in H. rewrite blank_test, Hb in H. discriminate.
  - intros Hb. unfold processText. now rewrite blank_test, Hb.
Qed.

Lemma cli_rejects_blank_witness :
  (fst (processText "  " "gaps" tickingWorld)
   = Exit1 ["Error: Text input is required"]
   <-> blank "  " = true)
  /\ (blank "  " = true -> snd (processText "  " "gaps" tickingWorld) = tickingWorld).
Proof.
  apply (cli_rejects_blank "  " "gaps" tickingWorld). simpl. tauto.
Defined.

(** X17. On a text that is not blank, the command gaps prints the
    analysis and the command refine prints the refinement, whatever the
    text; the command convert exits with the error of the conversion
    when the text has nothing but white space and the characters '.',
    '!', '?', and prints a response with success true otherwise. *)
Theorem cli_commands (text : string) (w : World) :
  blank text = false ->
  fst (processText text "gaps" w) = Printed (GapsValue (analyzeTextForGaps text))
  /\ fst (processText text "refine" w) = Printed (RefineValue (refinePrompt text))
  /\ (noSentence text = true ->
      fst (processText text "convert" w)
      = Exit1 ["Error: Cannot read properties of undefined (reading 'trim')"])
  /\ (noSentence text = false ->
      exists r, fst (processText text "convert" w) = Printed (ConvertValue r)
                /\ r = fst (convertPromptToJson text w)
                /\ success r = true).
Proof.
  intros Hb. split; [|split; [|split]].
  - unfold processText. now rewrite blank_test, Hb.
  - unfold processText. now rewrite blank_test, Hb.
  - intros Hn. rewrite (processText_convert text w Hb). cbn zeta.
    destruct (convertPromptToJson_cases text w) as [(_ & Hs & He) | (Hn' & _)];
      [|congruence].
    now rewrite Hs, He.
  - intros Hn. rewrite (processText_convert text w Hb). cbn zeta.
    destruct (convertPromptToJson_cases text w) as [(Hn' & _) | (_ & Hs)];
      [congruence|].
    rewrite Hs. eexists. repeat split. exact Hs.
Qed.

Lemma cli_commands_witness :
  fst (processText "?!" "gaps" tickingWorld)
  = Printed (GapsValue (analyzeTextForGaps "?!"))
  /\ fst (processText "?!" "convert" tickingWorld)
     = Exit1 ["Error: Cannot read properties of undefined (reading 'trim')"].
Proof.
  destruct (cli_commands "?!" tickingWorld eq_refl) as (Hg & _ & Hc & _).
  split; [exact Hg | exact (Hc eq_refl)].
Defined.

(** X18. For a command among convert, gaps and refine, main shows the
    help as soon as one of the words after the command is --help or -h,
    and otherwise the version as soon as one is --version or -v, so such
    a word cannot be part of a text; without any of them, it asks for a
    text when no word follows the command and else processes the words
    joined by single spaces. *)
Theorem cli_main_dispatch (command : string) (words : list string) (w : World) :
  In command ["convert"; "gaps"; "refine"] ->
  (hasFlag "--help" words || hasFlag "-h" words = true ->
   fst (main (command :: words) w) = ShowHelp)
  /\ (hasFlag "--help" words || hasFlag "-h" words = false ->
      hasFlag "--version" words || hasFlag "-v" words = true ->
      fst (main (command :: words) w) = ShowVersion)
  /\ (hasFlag "--help" words || hasFlag "-h" words = false ->
      hasFlag "--version" words || hasFlag "-v" words = false ->
      main (command :: words) w
      = match words with
        | [] => (Exit1 ["Error: " ++ command ++ " requires text input";
                        "Usage: npx text-to-json-mcp " ++ command ++ " "
                        ++ JS.dq ++ "your text here" ++ JS.dq], w)
        | _ => processText (String.concat " " words) command w
        end).
Proof.
  intros Hc. unfold main, hasFlag.
  destruct Hc as [<- | [<- | [<- | []]]];
    cbn [existsb List.length Nat.eqb hd tl String.eqb Ascii.eqb Bool.eqb
         andb orb];
    (split; [|split]).
  all: try (intros H; apply orb_prop in H;
            destruct H as [H | H]; rewrite H; rewrite ?orb_true_r; reflexivity).
  all: try (intros H1 H2; apply orb_false_elim in H1; destruct H1 as [Ha Hb];
            rewrite Ha, Hb; cbn [orb];
            apply orb_prop in H2; destruct H2 as [H2 | H2]; rewrite H2;
            rewrite ?orb_true_r; reflexivity).
  all: intros H1 H2; apply orb_false_elim in H1; destruct H1 as [Ha Hb];
    apply orb_false_elim in H2; destruct H2 as [Hv Hv'];
    rewrite Ha, Hb, Hv, Hv'; cbn [orb];
    destruct words as [|x rest]; reflexivity.
Qed.

Lemma cli_main_dispatch_witness :
  fst (main ["gaps"; "Make"; "something"; "-h"] tickingWorld) = ShowHelp
  /\ main ["gaps"; "Make"; "something"; "good"] tickingWorld
     = processText "Make something good" "gaps" tickingWorld.
Proof.
  split.
  - exact (proj1 (cli_main_dispatch "gaps" ["Make"; "something"; "-h"]
                    tickingWorld (or_intror (or_introl eq_refl))) eq_refl).
  - exact (proj2 (proj2 (cli_main_dispatch "gaps" ["Make"; "something"; "good"]
                           tickingWorld (or_intror (or_introl eq_refl))))
                 eq_refl eq_refl).
Defined.

(** ** The request handlers *)

Lemma response_passes (text : string) :
  ClarityGapsResponseSchema_parse
    {| cg_success := true;
       cg_gaps := gaps (analyzeTextForGaps text);
       cg_score := overall_clarity_score (analyzeTextForGaps text) |}
  = Some {| cg_success := true;
            cg_gaps := gaps (analyzeTextForGaps text);
            cg_score := overall_clarity_score (analyzeTextForGaps text) |}.
Proof.
  unfold ClarityGapsResponseSchema_parse. cbn [cg_score].
  pose proof (calculateClarityScore_bounds text
                (uniqueByDescription (allGaps text))) as Hb.
  change (calculateClarityScore text (uniqueByDescription (allGaps text)))
    with (overall_clarity_score (analyzeTextForGaps text)) in Hb.
  destruct Hb as [H0 H100].
  apply Z.leb_le in H0, H100. now rewrite H0, H100.
Qed.

(** X19. The handler of findClarityGaps of src/index.js replies with
    success false, no finding and the score 0 when there are no
    parameters or the text is absent, not a string or empty, and for
    every other text with success true, the findings of the analysis and
    its score: the check of the response against its schema never
    rejects an analysis. *)
Theorem handler_validates (params : Params) :
  handleFindClarityGaps params
  = match params with
    | WithText (Str text) =>
        if text =? EmptyString
        then {| cg_success := false; cg_gaps := []; cg_score := 0 |}
        else {| cg_success := true;
                cg_gaps := gaps (analyzeTextForGaps text);
                cg_score := overall_clarity_score (analyzeTextForGaps text) |}
    | _ => {| cg_success := false; cg_gaps := []; cg_score := 0 |}
    end.
Proof.
  unfold handleFindClarityGaps, TextInputSchema_parse.
  destruct params as [|[|text|truthy]]; try reflexivity.
  destruct text as [|c s]; [reflexivity|].
  cbn [length Nat.leb String.eqb].
  now rewrite response_passes.
Qed.

(** X20. The two servers succeed on the same requests for
    findClarityGaps, those whose text is a non-empty string, and then
    reply with the same findings and the same score.  On every other
    request the handler of src/index.js replies with success false and
    the handler of src/mcp-server-v2.js with an error: "Text parameter is
    required" for a text that is absent, empty or falsy, and the message
    of the exception it catches for a request without parameters or a
    truthy text that is not a string. *)
Theorem servers_agree (params : Params) :
  match v2FindClarityGaps params with
  | V2Rejected error =>
      cg_success (handleFindClarityGaps params) = false
      /\ error
         = match params with
           | NoParams =>
               "Cannot destructure property 'text' of 'request.params' as it is undefined."
           | WithText (NonString true) => "text.split is not a function"
           | _ => "Text parameter is required"
           end
  | V2Result r =>
      handleFindClarityGaps params = r /\ cg_success r = true
      /\ exists text, params = WithText (Str text) /\ text <> EmptyString
  end.
Proof.
  unfold v2FindClarityGaps, destructureText, falsy.
  destruct params as [|[|text|[|]]]; try (now split).
  destruct (text =? EmptyString) eqn:E.
  - apply String.eqb_eq in E. subst text. now split.
  - split; [|split; [reflexivity|]].
    + unfold handleFindClarityGaps, TextInputSchema_parse.
      destruct text as [|c s]; [discriminate|].
      cbn [length Nat.leb]. now rewrite response_passes.
    + exists text. split; [reflexivity|]. now apply String.eqb_neq.
Qed.

(** X21. A text that is not empty but made of white space only is
    turned down by the command line, while the server of
    src/mcp-server-v2.js takes it: findClarityGaps replies with no
    finding and the score 100, refinePrompt with the text unchanged and
    no improvement, and convertPromptToJson with success false. *)
Theorem blank_text_across_callers (text : string) (w : World) :
  text <> EmptyString -> blank text = true ->
  fst (processText text "gaps" w) = Exit1 ["Error: Text input is required"]
  /\ v2FindClarityGaps (WithText (Str text))
     = V2Result {| cg_success := true; cg_gaps := []; cg_score := 100 |}
  /\ v2RefinePrompt (WithText (Str text))
     = V2Result {| refine_success := true; original_prompt := text;
                   refined_prompt := text; improvements := [] |}
  /\ (exists r, fst (v2ConvertPromptToJson (WithText (Str text)) w) = V2Result r
                /\ success r = false).
Proof.
  intros Hne Hb.
  assert (E : (text =? EmptyString) = false) by now apply String.eqb_neq.
  split; [|split; [|split]].
  - unfold processText. now rewrite blank_test, Hb.
  - unfold v2FindClarityGaps, destructureText, falsy. rewrite E.
    now rewrite (analyzeTextForGaps_blank text Hb).
  - unfold v2RefinePrompt, destructureText, falsy. rewrite E.
    unfold refinePrompt, step.
    now rewrite (analyzeTextForGaps_blank text Hb).
  - unfold v2ConvertPromptToJson, destructureText, falsy. rewrite E.
    unfold bind, ret.
    pose proof (convertPromptToJson_cases text w) as H.
    destruct (convertPromptToJson text w) as [r w']. cbn [fst] in *.
    exists r. split; [reflexivity|].
    destruct H as [(_ & Hs & _) | (Hn & _)]; [exact Hs|].
    rewrite (blank_noSentence text Hb) in Hn. discriminate.
Qed.

Lemma blank_text_across_callers_witness :
  fst (processText " " "gaps" tickingWorld)
  = Exit1 ["Error: Text input is required"]
  /\ v2FindClarityGaps (WithText (Str " "))
     = V2Result {| cg_success := true; cg_gaps := []; cg_score := 100 |}.
Proof.
  assert (Hne : " " <> EmptyString) by discriminate.
  split;
    apply (blank_text_across_callers " " tickingWorld Hne eq_refl).
Defined.

(** ** The filter on descriptions, on any list *)

Lemma firstOccurrences_covers l : forall seen d,
  In d (map description l) ->
  In d seen \/ In d (map description (firstOccurrences seen l)).
Proof.
  induction l as [|g r IH]; intros seen d H; [destruct H|].
  cbn [firstOccurrences]. destruct H as [<- | H].
  - destruct (existsb (String.eqb (description g)) seen) eqn:E.
    + left. apply existsb_exists in E. destruct E as (x & Hx & E).
      apply String.eqb_eq in E. now subst x.
    + right. now left.
  - destruct (existsb (String.eqb (description g)) seen) eqn:E.
    + now apply IH.
    + destruct (IH (description g :: seen) d H) as [[<- | Hs] | Hr].
      * right. now left.
      * now left.
      * right. now right.
Qed.

(** X22. On any list of findings the filter of analyzeTextForGaps keeps
    findings of the list only, keeps a finding for every description of
    the list, and changes nothing when applied a second time. *)
Theorem unique_filter_laws (self : list Finding) :
  (forall g, In g (uniqueByDescription self) -> In g self)
  /\ (forall g, In g self ->
        exists g', In g' (uniqueByDescription self)
                   /\ description g' = description g)
  /\ uniqueByDescription (uniqueByDescription self) = uniqueByDescription self.
Proof.
  split; [|split].
  - intros g. apply uniqueByDescription_incl.
  - intros g Hg. rewrite uniqueByDescription_firstOccurrences.
    destruct (firstOccurrences_covers self [] (description g)
                (in_map description self g Hg)) as [[] | H].
    apply in_map_iff in H. destruct H as (g' & E & Hg'). now exists g'.
  - rewrite !uniqueByDescription_firstOccurrences.
    apply firstOccurrences_id; [apply firstOccurrences_NoDup | intros d []].
Qed.

(** ** How many findings *)

Lemma scanIndicators_length table mk text :
  List.length (scanIndicators table mk text) <= List.length table.
Proof.
  unfold scanIndicators. induction table as [|a l IH]; [simpl; lia|].
  rewrite flat_map_step, length_app. cbn [List.length].
  destruct (JS.includes _ _); simpl; lia.
Qed.

Lemma contextGaps_length index sentence (table : list string) :
  List.length (flat_map (contextGaps index sentence) table) <= List.length table.
Proof.
  induction table as [|a t IH]; [simpl; lia|].
  rewrite flat_map_step, length_app, contextGaps_cases. cbn [List.length].
  destruct (_ && _); simpl; lia.
Qed.

Lemma findMissingContext_length text :
  List.length (findMissingContext text) <= 12 * List.length (sentencesOf text).
Proof.
  unfold findMissingContext, JS.indexed.
  assert (H : forall (l : list string) (start : nat),
             List.length
               (flat_map (fun '(index, sentence) =>
                            flat_map (contextGaps index sentence)
                                     CONTEXT_INDICATORS)
                         (combine (seq start (List.length l)) l))
             <= 12 * List.length l).
  { induction l as [|s l IH]; intros start; [simpl; lia|].
    cbn [List.length seq combine]. rewrite flat_map_step, length_app.
    cbv beta iota. specialize (IH (S start)).
    pose proof (contextGaps_length start s CONTEXT_INDICATORS) as H.
    change (List.length CONTEXT_INDICATORS) with 12 in H. lia. }
  apply H.
Qed.

(** X23. An analysis has at most 12 findings of category missing_context
    for each sentence of the text, and at most 17, 9 and 9 findings of
    the three other categories; every finding of category
    missing_context names a sentence of the text. *)
Theorem findings_bounded (text : string) :
  List.length (gaps (analyzeTextForGaps text))
  <= 12 * List.length (sentencesOf text) + 35
  /\ List.length (findAmbiguousRequirements text) <= 17
  /\ List.length (findUnclearOutputs text) <= 9
  /\ List.length (findMissingConstraints text) <= 9
  /\ (forall g, In g (findMissingContext text) ->
        exists indicator i,
          g = contextFinding indicator i
          /\ In indicator CONTEXT_INDICATORS
          /\ i < List.length (sentencesOf text)).
Proof.
  pose proof (findMissingContext_length text) as Hc.
  pose proof (scanIndicators_length AMBIGUITY_INDICATORS ambiguityFinding text)
    as Ha.
  pose proof (scanIndicators_length OUTPUT_INDICATORS outputFinding text) as Ho.
  pose proof (scanIndicators_length CONSTRAINT_INDICATORS constraintFinding text)
    as Hk.
  cbn [List.length AMBIGUITY_INDICATORS OUTPUT_INDICATORS CONSTRAINT_INDICATORS]
    in Ha, Ho, Hk.
  split; [|split; [|split; [|split]]];
    try (unfold findAmbiguousRequirements, findUnclearOutputs,
         findMissingConstraints; lia).
  - rewrite analysis_gaps_all. unfold allGaps. rewrite !length_app.
    unfold findAmbiguousRequirements, findUnclearOutputs,
      findMissingConstraints. lia.
  - intros g H. apply findMissingContext_In in H.
    destruct H as (i & s & ind & Hs & Hind & H).
    apply contextGaps_In in H. exists ind, i. repeat split; auto.
    apply indexed_In in Hs. apply nth_error_Some. congruence.
Qed.

(** ** The record of a conversion *)

(** X24. In the record of a conversion the clarity gaps are the
    descriptions of the findings of the analysis of the same text, in
    their order and without repetition; the required inputs are not
    empty, the optional inputs and the constraints have two entries at
    least, and there are two secondary outputs. *)
Theorem record_shape (text : string) (w : World) (d : PromptRecord) :
  data (fst (convertPromptToJson text w)) = Some d ->
  clarity_gaps d = map description (gaps (analyzeTextForGaps text))
  /\ NoDup (clarity_gaps d)
  /\ 1 <= List.length (required (inputs d))
  /\ 2 <= List.length (optional (inputs d))
  /\ 2 <= List.length (constraints (inputs d))
  /\ List.length (secondary (outputs d)) = 2.
Proof.
  unfold convertPromptToJson, bind, Date_now, ret, extractRecord.
  destruct (extractTask text) as [t | e]; cbn [fst data]; [|discriminate].
  intros H. injection H as <-.
  cbn [clarity_gaps inputs outputs required optional constraints].
  split; [reflexivity|]. split.
  - unfold analyzeTextForGaps; cbn [gaps].
    rewrite uniqueByDescription_firstOccurrences. apply firstOccurrences_NoDup.
  - repeat split.
    + unfold extractRequiredInputs.
      destruct (_ ++ _)%list as [|x rest]; simpl; lia.
    + unfold extractOptionalInputs. rewrite length_app. simpl. lia.
    + unfold extractConstraints. rewrite length_app. simpl. lia.
Qed.

Lemma record_shape_witness :
  exists d,
    data (fst (convertPromptToJson "Build it within two days" tickingWorld))
    = Some d
    /\ clarity_gaps d
       = map description (gaps (analyzeTextForGaps "Build it within two days"))
    /\ NoDup (clarity_gaps d)
    /\ 1 <= List.length (required (inputs d))
    /\ 2 <= List.length (optional (inputs d))
    /\ 2 <= List.length (constraints (inputs d))
    /\ List.length (secondary (outputs d)) = 2.
Proof.
  eexists. split; [reflexivity|].
  exact (record_shape "Build it within two days" tickingWorld _ eq_refl).
Defined.

(** ** Counting words *)

Lemma splitRunsGo_ink isSep s b :
  match s with
  | String c _ => isSep c = false
  | EmptyString => True
  end ->
  JS.splitRunsGo isSep b s = JS.splitRunsGo isSep false s.
Proof.
  destruct s as [|c s]; [reflexivity|]. intros H.
  cbn [JS.splitRunsGo]. now rewrite H.
Qed.

(** X25. The word count is never 0, not even for the empty text, where
    it is 1; and a white space put before a text that starts with
    another character adds 1 to it, as the empty piece before that
    space is counted. *)
Theorem wordCount_edges (text : string) (c : ascii) :
  1 <= wordCount text
  /\ wordCount EmptyString = 1
  /\ (JS.isWhiteSpace c = true -> startsWithInk text = true ->
      wordCount (String c text) = S (wordCount text)).
Proof.
  unfold wordCount, JS.splitRuns. split; [|split; [reflexivity|]].
  - destruct (JS.splitRunsGo JS.isWhiteSpace false text). simpl. lia.
  - intros Hc Hi. cbn [JS.splitRunsGo]. rewrite Hc.
    rewrite (splitRunsGo_ink JS.isWhiteSpace text true).
    + destruct (JS.splitRunsGo JS.isWhiteSpace false text). reflexivity.
    + destruct text as [|x s]; [exact I|]. simpl in Hi.
      now apply negb_true_iff in Hi.
Qed.
